(** * Library Guard: a shallow embedding of the core of libguard

    The Python sources live in [src/libguard]; each definition below names
    the function it embeds.  Effects are modelled explicitly: Python
    exceptions by the [outcome] type, the filesystem and the database by
    records threaded through the functions, environment failures (failing
    system calls, failing SQL statements) by oracle arguments. *)

From Stdlib Require Import ZArith List String Bool Lia.
From Stdlib Require Import Floats Uint63 Permutation.
From stdpp Require Import base gmap.
Import ListNotations.
Import (notations) Ascii.
Set Warnings "-inexact-float".

(* ------------------------------------------------------------------ *)
(** ** Error taxonomy ([libguard/__init__.py], class [LgErr]) *)

Inductive LgErr :=
  | EOK | EINVFORMAT | EINVBRATE | EINVSRATE | EINVBITS | EINVTAGS
  | EMISSINGTAGS | ECORRUPTED | EINCONSISTENT | EEMPTY | EIGNORE | ERIP
  | EINVPATH | ERGAIN | EDBERR | EACCESS | ETERMINATE | EUNKNOWN.

Scheme Equality for LgErr.

(** Python's [x in errors] on a list of [LgErr]. *)
Definition err_in (x : LgErr) (errors : list LgErr) : bool :=
  existsb (LgErr_beq x) errors.

(** Python exceptions that the modelled code can raise. *)
Inductive py_exn :=
  | TypeError
  | ValueError
  | NameError
  | OSError
  | SqliteError
  | LgException (e : LgErr).

Inductive outcome (A : Type) :=
  | Ok (a : A)
  | Raise (x : py_exn).
Arguments Ok {A} a.
Arguments Raise {A} x.

Global Instance outcome_ret : MRet outcome := fun A a => Ok a.
Global Instance outcome_bind : MBind outcome :=
  fun A B k m => match m with Ok a => k a | Raise x => Raise x end.

(* ------------------------------------------------------------------ *)
(** ** [LgDirectory._pick_withdraw_err] ([lgdirectory.py]) *)

Definition _pick_withdraw_err (errors : list LgErr) : LgErr :=
  if Nat.eqb (length errors) 0 then EOK
  else if err_in EINVFORMAT errors then EINVFORMAT
  else if err_in EINVTAGS errors then EINVTAGS
  else if err_in EMISSINGTAGS errors then EMISSINGTAGS
  else if err_in EINCONSISTENT errors then EINCONSISTENT
  else if err_in ECORRUPTED errors then ECORRUPTED
  else if err_in EINVSRATE errors then EINVSRATE
  else if err_in EINVBRATE errors then EINVBRATE
  else EUNKNOWN.

(** The spec's reading of [pick_worst]: the first kind of [withdraw_order]
    present in the bag, else [EUNKNOWN] on a non-empty bag, else [EOK]. *)
Definition withdraw_order : list LgErr :=
  [EINVFORMAT; EINVTAGS; EMISSINGTAGS; EINCONSISTENT; ECORRUPTED;
   EINVSRATE; EINVBRATE].

Definition pick_worst_spec (errors : list LgErr) : LgErr :=
  match find (fun k => err_in k errors) withdraw_order with
  | Some k => k
  | None => match errors with [] => EOK | _ => EUNKNOWN end
  end.

(** Severity in the worst-to-least order of the taxonomy: the seven ranked
    kinds, then [EUNKNOWN], then [EOK]; kinds never returned rank lowest. *)
Definition severity (e : LgErr) : nat :=
  match e with
  | EINVFORMAT => 9 | EINVTAGS => 8 | EMISSINGTAGS => 7
  | EINCONSISTENT => 6 | ECORRUPTED => 5 | EINVSRATE => 4
  | EINVBRATE => 3 | EUNKNOWN => 2 | EOK => 1 | _ => 0
  end.

(* ------------------------------------------------------------------ *)
(** ** [LgAudioFile.TrackInfo] ([lgfile.py])

    Optional ints are [option Z], optional strings [option string],
    optional Python floats [option float] (binary64).  The fields
    [track_iloud], [track_rthres], [duration_diff] and [total_frames] are
    not read by any function modelled here and are left out. *)

Record TrackInfo := mkTrackInfo {
  track_number : option Z;
  num_tracks : option Z;
  disc_number : option Z;
  num_discs : option Z;
  album_id : option string;
  releasegroup_id : option string;
  album_gain : option float;
  album_peak : option float;
  track_gain : option float;
  track_peak : option float;
  track_lra : option float;
  sample_rate : option Z;
  bit_rate : option Z;
  bit_depth : option Z;
  duration_secs : option Z;
  (** [_unique_id]: [uuid.uuid4().hex], drawn afresh for every instance *)
  unique_id : string
}.

(* ------------------------------------------------------------------ *)
(** ** Python float arithmetic *)

(** [float(z)] for an int; exact for |z| < 2^53, the range of every
    sample rate, bit depth and bit rate. *)
Definition float_of_Z (z : Z) : float :=
  if (z <? 0)%Z then (- of_uint63 (Uint63.of_Z (- z)))%float
  else of_uint63 (Uint63.of_Z z).

(** [a / b] on a Python int or None and an int constant: [None / b]
    raises TypeError. *)
Definition py_opt_truediv (a : option Z) (b : Z) : outcome float :=
  match a with
  | None => Raise TypeError
  | Some a => Ok (float_of_Z a / float_of_Z b)%float
  end.

(** Python's [min(a, b)] and [max(a, b)] on floats: the first argument
    unless the second compares strictly smaller (resp. greater). *)
Definition py_min (a b : float) : float := if (b <? a)%float then b else a.
Definition py_max (a b : float) : float := if (a <? b)%float then b else a.

(* ------------------------------------------------------------------ *)
(** ** [LgAudioFile._calculate_quality_metric] and [get_qm] ([lgfile.py])

    [math.log2] and [math.exp] are libm functions: they are section
    variables, with [math.log2]'s domain check (ValueError on x <= 0)
    written out. *)

Section QualityMetric.
Variable log2f : float -> float.
Variable expf : float -> float.

Local Open Scope float_scope.

Definition py_log2 (x : float) : outcome float :=
  if x <=? 0 then Raise ValueError else Ok (log2f x).

(** The audio-file fields the metric reads and writes. *)
Record AudioFileQM := mkAudioFileQM {
  af_track_info : TrackInfo;
  af_verification_state : LgErr;
  af_quality_metric : option float;
  af_qm_scaling_factor : option float
}.

Definition REF_SAMPLE_RATE : Z := 48000.
Definition REF_BIT_DEPTH : Z := 24.
Definition REF_BITRATE : Z := 705600.
Definition REF_LRA : float := 10.0.
Definition DEFAULT_LRA_FACTOR : float := 0.5.

Definition dynamic_range_factor (ti : TrackInfo) : float :=
  match track_lra ti with
  | Some lra =>
      if 0 <? lra then
        let lra_ratio := lra / REF_LRA in
        let d := expf (-0.5 * ((lra_ratio - 1) * (lra_ratio - 1)) / 0.5) in
        py_max 0.2 (py_min 1.0 d)
      else DEFAULT_LRA_FACTOR
  | None => DEFAULT_LRA_FACTOR
  end.

Definition peak_factor (ti : TrackInfo) : float :=
  match track_peak ti with
  | Some peak =>
      if (0 <? peak) && (0.95 <? peak) then
        let pf := 1.0 - (peak - 0.95) * 2 in
        match track_lra ti with
        | Some lra => if lra <? 6.0 then pf - (6.0 - lra) / 60.0 else pf
        | None => pf
        end
      else 1.0
  | None => 1.0
  end.

(** Returns the updated file; the Python method also returns the new
    [_quality_metric]. *)
Definition _calculate_quality_metric (f : AudioFileQM) (format_weight : float)
    : outcome AudioFileQM :=
  (* if self._verification_state != LgErr.EOK: self._quality_metric = None *)
  let f := if LgErr_beq (af_verification_state f) EOK then f
           else mkAudioFileQM (af_track_info f) (af_verification_state f)
                  None (af_qm_scaling_factor f) in
  let ti := af_track_info f in
  sr ← py_opt_truediv (sample_rate ti) REF_SAMPLE_RATE;
  sample_rate_factor ← py_log2 sr;
  bd ← py_opt_truediv (bit_depth ti) REF_BIT_DEPTH;
  bit_depth_factor ← py_log2 bd;
  br ← py_opt_truediv (bit_rate ti) REF_BITRATE;
  bitrate_factor ← py_log2 br;
  let qm := sample_rate_factor * 0.25 + bit_depth_factor * 0.25
            + bitrate_factor * 0.15 + dynamic_range_factor ti * 0.15
            + peak_factor ti * 0.10 + format_weight * 1.1 in
  Ok (mkAudioFileQM ti (af_verification_state f) (Some qm)
        (af_qm_scaling_factor f)).

Definition get_qm (f : AudioFileQM) : option float :=
  match af_quality_metric f with
  | None => None
  | Some qm =>
      match af_qm_scaling_factor f with
      | Some s => Some (qm / (qm + s))
      | None => Some qm
      end
  end.

(** [LgAudioFile.__init__]: [_quality_metric] starts as None, then the
    metric is computed with the codec's format weight; the scaling factor
    starts as None. *)
Definition init_quality_metric (ti : TrackInfo) (status : LgErr)
    (format_weight : float) : outcome AudioFileQM :=
  _calculate_quality_metric (mkAudioFileQM ti status None None) format_weight.

End QualityMetric.

(* ------------------------------------------------------------------ *)
(** ** Verification cache: [LgFile._update_verification_ts_on_xattrs]
       and [LgAudioFile.__exit__] ([lgfile.py])

    A file is its integral [mtime] ([int(st_mtime)]), its
    [user.lguard_verification_ts] attribute and its mode bits.  The
    attribute is either the ASCII decimal of an int (what the code writes)
    or bytes that [int(...decode("ascii"))] rejects.  Whether [setxattr],
    the [os.stat]/[os.chmod] pair, and mutagen's [save] succeed is given by
    the environment. *)

Inductive xattr_val :=
  | XNum (z : Z)
  | XRaw (s : string).

Record FileState := mkFileState {
  fs_mtime : Z;
  fs_xattr : option xattr_val;
  fs_mode : Z
}.

Record FsEnv := mkFsEnv {
  setxattr_ok : bool;
  chmod_ok : bool;
  save_ok : bool;
  (** the mtime the file has after mutagen rewrote it *)
  save_mtime : Z
}.

Definition S_IWGRP : Z := 16. (* 0o020 *)

(** [int(getxattr(path, b"user.lguard_verification_ts").decode("ascii"))]
    inside [try: ... except OSError: check_ts = None]: a missing attribute
    is an OSError (caught), unparsable bytes a ValueError (not caught). *)
Definition read_verification_ts (f : FileState) : outcome (option Z) :=
  match fs_xattr f with
  | None => Ok None
  | Some (XNum z) => Ok (Some z)
  | Some (XRaw _) => Raise ValueError
  end.

Definition _update_verification_ts_on_xattrs (env : FsEnv) (f : FileState)
    : outcome FileState :=
  (* os.sync(); mtime = int(os.stat(fentry.path).st_mtime) *)
  let mtime := fs_mtime f in
  check_ts ← read_verification_ts f;
  let needs_update :=
    match check_ts with None => true | Some c => negb (Z.eqb mtime c) end in
  if needs_update then
    if setxattr_ok env then
      let f1 := mkFileState (fs_mtime f) (Some (XNum mtime)) (fs_mode f) in
      if chmod_ok env then
        Ok (mkFileState (fs_mtime f1) (fs_xattr f1)
              (Z.land (fs_mode f1) (Z.lnot S_IWGRP)))
      else Ok f1 (* OSError: warning *)
    else Ok f (* OSError: warning *)
  else Ok f.

(** The exception [__exit__] is called with. *)
Inductive exit_exc :=
  | ExcNone
  | ExcLg (e : LgErr)
  | ExcOther.

(** The audio-file fields [__exit__] reads (audio files are never moved,
    so [self.fentry] is still set when [__exit__] runs), and how
    [os.remove] fares on the file. *)
Record AudioFileExit := mkAudioFileExit {
  ax_verification_state : LgErr;
  ax_should_delete : bool;
  ax_tags_updated : bool;
  ax_dryrun : bool;
  (** [os.remove(path)] removes the file or finds it already gone
      (FileNotFoundError); [false]: it raises another exception *)
  ax_remove_ok : bool
}.

(** [LgFile._delete]: in a dry run it only logs; otherwise [os.remove],
    whose exceptions are all caught and logged.  [None] when the file is
    gone afterwards. *)
Definition _delete (af : AudioFileExit) (f : FileState) : option FileState :=
  if ax_dryrun af then Some f
  else if ax_remove_ok af then None
  else Some f.

(** Returns the file afterwards, [None] when it was deleted. *)
Definition audio_file_exit (env : FsEnv) (af : AudioFileExit) (exc : exit_exc)
    (f : FileState) : outcome (option FileState) :=
  let exc_ok := match exc with
                | ExcNone => true
                | ExcLg e => LgErr_beq e EOK
                | ExcOther => false
                end in
  f' ← (if LgErr_beq (ax_verification_state af) EOK && exc_ok
           && negb (ax_should_delete af) then
          if ax_dryrun af then Ok f
          else if ax_tags_updated af then
            if save_ok env then
              _update_verification_ts_on_xattrs env
                (mkFileState (save_mtime env) (fs_xattr f) (fs_mode f))
            else Ok f (* MutagenError: logged *)
          else Ok f
        else Ok f);
  if ax_should_delete af then Ok (_delete af f') else Ok (Some f').

(* ------------------------------------------------------------------ *)
(** ** Directory flags ([LgDirectory._DirectoryFlags], an IntFlag) *)

Definition HAS_AUDIO : Z := Z.shiftl 1 0.
Definition HAS_VIDEO : Z := Z.shiftl 1 1.
Definition HAS_ARTWORK : Z := Z.shiftl 1 2.
Definition HAS_TEXT : Z := Z.shiftl 1 3.
Definition HAS_MARKER : Z := Z.shiftl 1 4.
Definition HAS_SUBDIRS : Z := Z.shiftl 1 5.
Definition WITHDRAWN : Z := Z.shiftl 1 6.
Definition NEEDS_RGAIN : Z := Z.shiftl 1 7.
Definition STANDALONE : Z := Z.shiftl 1 8.
Definition CHECK_DUPLICATES : Z := Z.shiftl 1 9.
Definition PARTIAL_RELEASE : Z := Z.shiftl 1 10.
Definition PART_OF_SET : Z := Z.shiftl 1 11.

(** [flag in flags] *)
Definition flag_in (flag flags : Z) : bool := Z.eqb (Z.land flags flag) flag.

(* ------------------------------------------------------------------ *)
(** ** Withdraw protocol: [LgDirectory.should_withdraw] and
       [LgDirectory.withdraw] ([lgdirectory.py])

    Directory objects are shared (a child holds a reference to its parent
    and appends to the parent's [errors] list), so they live in a store
    indexed by object identity.  The junkyard path computation only
    decides where the files go and is not modelled; the filesystem
    outcomes of [makedirs] and [scandir] come from the environment. *)

Record Dir := mkDir {
  d_flags : Z;
  d_errors : list LgErr;
  d_parent : option nat
}.

Abbreviation DirStore := (gmap nat Dir).



Definition should_withdraw (d : Dir) : bool :=
  negb (Nat.eqb (length (d_errors d)) 0) && negb (flag_in WITHDRAWN (d_flags d)).





(* ------------------------------------------------------------------ *)
(** ** Album reconciliation: [LgAudioDirectory.__init__] ([lgdirectory.py])

    File names are modelled as ASCII strings; [str.split()] splits on the
    ASCII whitespace characters Python recognises. *)

Definition py_isspace (c : Ascii.ascii) : bool :=
  let n := Ascii.nat_of_ascii c in
  (Nat.eqb n 32) || ((9 <=? n) && (n <=? 13))%nat || ((28 <=? n) && (n <=? 31))%nat.

Definition py_isdigit_char (c : Ascii.ascii) : bool :=
  let n := Ascii.nat_of_ascii c in ((48 <=? n) && (n <=? 57))%nat.

(** [file_parts = name.split(); file_parts[0]], [None] when [file_parts]
    is empty. *)
Fixpoint take_word (cs : list Ascii.ascii) : list Ascii.ascii :=
  match cs with
  | [] => []
  | c :: t => if py_isspace c then [] else c :: take_word t
  end.

Fixpoint first_word (cs : list Ascii.ascii) : option (list Ascii.ascii) :=
  match cs with
  | [] => None
  | c :: t => if py_isspace c then first_word t else Some (take_word cs)
  end.

(** [s.isdigit()] on a non-empty ASCII word *)
Definition py_isdigit (cs : list Ascii.ascii) : bool :=
  match cs with [] => false | _ => forallb py_isdigit_char cs end.

(** [int(s)] on a string of ASCII digits *)
Definition digits_value (cs : list Ascii.ascii) : Z :=
  fold_left (fun acc c => acc * 10 + Z.of_nat (Ascii.nat_of_ascii c - 48))%Z cs 0%Z.

Record AudioEntry := mkAudioEntry {
  ae_name : string;
  ae_info : TrackInfo
}.

(** [self.audio_files.sort(key=lambda file: int(file.get_track_info().track_number))]:
    Python computes every key first ([int(None)] raises TypeError), then
    sorts stably; insertion sort is the stable sort, so it yields the same
    list as timsort. *)
Fixpoint sort_keys (files : list AudioEntry) : outcome (list (Z * AudioEntry)) :=
  match files with
  | [] => Ok []
  | f :: t =>
    match track_number (ae_info f) with
    | None => Raise TypeError
    | Some n => ks ← sort_keys t; Ok ((n, f) :: ks)
    end
  end.

Fixpoint insert_by_key (k : Z) (x : AudioEntry) (l : list (Z * AudioEntry))
    : list (Z * AudioEntry) :=
  match l with
  | [] => [(k, x)]
  | (k', y) :: t => if (k <? k')%Z then (k, x) :: l else (k', y) :: insert_by_key k x t
  end.

Definition stable_sort_by_key (l : list (Z * AudioEntry)) : list AudioEntry :=
  map snd (fold_left (fun acc kx => insert_by_key (fst kx) (snd kx) acc) l []).

Definition sort_by_track_number (files : list AudioEntry) : outcome (list AudioEntry) :=
  ks ← sort_keys files; Ok (stable_sort_by_key ks).

(** Python's [a != b] on optional values *)
Definition opt_neq {A} (eqb : A -> A -> bool) (a b : option A) : bool :=
  match a, b with
  | None, None => false
  | Some x, Some y => negb (eqb x y)
  | _, _ => true
  end.

(** [if cur is None and new is not None: cur = new / elif cur != new: ...];
    [None] when the [elif] branch fires. *)
Definition merge_field {A} (eqb : A -> A -> bool) (cur new : option A)
    : option (option A) :=
  match cur, new with
  | None, Some _ => Some new
  | _, _ => if opt_neq eqb cur new then None else Some cur
  end.

(** The local variables of the scan loop, plus the directory's flags and
    errors. *)
Record ScanAcc := mkScanAcc {
  s_num_tracks : option Z;
  s_num_discs : option Z;
  s_disc_number : option Z;
  s_album_id : option string;
  s_releasegroup_id : option string;
  s_album_gain : option float;
  s_album_peak : option float;
  s_first_track_no : option Z;
  s_last_track_no : option Z;
  s_flags : Z;
  s_errors : list LgErr
}.

Definition scan_init (flags : Z) : ScanAcc :=
  mkScanAcc None None None None None None None None None flags [].

Definition scan_fail (a : ScanAcc) (e : LgErr) : ScanAcc :=
  mkScanAcc (s_num_tracks a) (s_num_discs a) (s_disc_number a) (s_album_id a)
    (s_releasegroup_id a) (s_album_gain a) (s_album_peak a)
    (s_first_track_no a) (s_last_track_no a) (s_flags a) (s_errors a ++ [e]).

Inductive step_result :=
  | Continue (a : ScanAcc)
  | Break (a : ScanAcc).

(** One iteration of [for entry in self.audio_files:]; [Break] is the
    loop's [break] after [self.errors.append(...)]. *)
Definition scan_step (a : ScanAcc) (entry : AudioEntry) : step_result :=
  let ti := ae_info entry in
  match track_number ti with
  | None => Break (scan_fail a EINVTAGS)
  | Some tn =>
    (* continuity of track numbers *)
    let cont :=
      match s_last_track_no a with
      | None => Some (Some tn, s_flags a)
      | Some last =>
        if (tn =? last + 1)%Z then Some (s_first_track_no a, s_flags a)
        else if (tn =? last)%Z then Some (s_first_track_no a, Z.lor (s_flags a) CHECK_DUPLICATES)
        else None
      end in
    match cont with
    | None => Break (scan_fail a EINCONSISTENT)
    | Some (first, flags) =>
    let a := mkScanAcc (s_num_tracks a) (s_num_discs a) (s_disc_number a)
               (s_album_id a) (s_releasegroup_id a) (s_album_gain a)
               (s_album_peak a) first (Some tn) flags (s_errors a) in
    (* the file name starts with the track number *)
    match first_word (list_ascii_of_string (ae_name entry)) with
    | None => Break (scan_fail a EINCONSISTENT)
    | Some w =>
    if negb (py_isdigit w) then Break (scan_fail a EINCONSISTENT)
    else if negb (Z.eqb (digits_value w) tn) then Break (scan_fail a EINCONSISTENT)
    else
    (* album metadata that must agree among all tracks *)
    match merge_field Z.eqb (s_num_tracks a) (num_tracks ti),
          merge_field Z.eqb (s_num_discs a) (num_discs ti),
          merge_field Z.eqb (s_disc_number a) (disc_number ti),
          merge_field String.eqb (s_album_id a) (album_id ti),
          merge_field String.eqb (s_releasegroup_id a) (releasegroup_id ti) with
    | None, _, _, _, _ | _, None, _, _, _ | _, _, None, _, _
    | _, _, _, None, _ | _, _, _, _, None => Break (scan_fail a EINCONSISTENT)
    | Some nt, Some nd, Some dn, Some aid, Some rg =>
      (* replaygain tags: a mismatch only asks for a new analysis *)
      let '(ag, flags) :=
        match merge_field PrimFloat.eqb (s_album_gain a) (album_gain ti) with
        | Some g => (g, s_flags a)
        | None => (s_album_gain a, Z.lor (s_flags a) NEEDS_RGAIN)
        end in
      let '(ap, flags) :=
        match merge_field PrimFloat.eqb (s_album_peak a) (album_peak ti) with
        | Some p => (p, flags)
        | None => (s_album_peak a, Z.lor flags NEEDS_RGAIN)
        end in
      Continue (mkScanAcc nt nd dn aid rg ag ap (s_first_track_no a)
                  (s_last_track_no a) flags (s_errors a))
    end
    end
    end
  end.

Fixpoint scan (a : ScanAcc) (files : list AudioEntry) : ScanAcc :=
  match files with
  | [] => a
  | f :: t =>
    match scan_step a f with
    | Continue a' => scan a' t
    | Break a' => a'
    end
  end.

(** The class [__init__] leaves the object in. *)
Inductive AudioDirKind :=
  | KAudio  (* LgAudioDirectory: standalone folder or failed checks *)
  | KAlbum  (* mutated to LgAlbumDirectory *)
  | KDisc.  (* mutated to LgDiscDirectory *)

Record AudioDirResult := mkAudioDirResult {
  r_kind : AudioDirKind;
  r_flags : Z;
  r_errors : list LgErr;
  r_audio_files : list AudioEntry
}.

(** The checks after the loop, run when the loop recorded no error;
    [n_files] is [len(self.audio_files)]. *)
Definition post_scan (a : ScanAcc) (n_files : nat) : AudioDirKind * Z * list LgErr :=
  let flags := s_flags a in
  let errors := s_errors a in
  match s_album_id a with
  | None => (KAudio, flags, errors ++ [EMISSINGTAGS])
  | Some _ =>
  match s_num_tracks a with
  | None => (KAudio, flags, errors ++ [EINVTAGS])
  | Some nt =>
  if (nt =? 0)%Z then (KAudio, flags, errors ++ [EINVTAGS]) else
  let n := Z.of_nat n_files in
  let res :=
    if (nt <? n)%Z then Some (Z.lor flags CHECK_DUPLICATES)
    else if (n <? nt)%Z then
      if (nt =? n + 1)%Z then None
      else Some (Z.lor flags PARTIAL_RELEASE)
    else Some flags in
  match res with
  | None => (KAudio, flags, errors ++ [EINCONSISTENT])
  | Some flags =>
    let flags :=
      match s_num_discs a with
      | Some nd => if negb (nd =? 0)%Z && (1 <? nd)%Z then Z.lor flags PART_OF_SET else flags
      | None => flags
      end in
    let flags :=
      match s_album_gain a, s_album_peak a with
      | Some _, Some _ => flags
      | _, _ => Z.lor flags NEEDS_RGAIN
      end in
    ((if flag_in PART_OF_SET flags then KDisc else KAlbum), flags, errors)
  end
  end
  end.

(** [LgAudioDirectory.__init__] on a directory named [name] whose
    [__new__] left [flags] and an empty error list. *)
Definition audio_dir_init (name : string) (flags : Z) (files : list AudioEntry)
    : outcome AudioDirResult :=
  if String.eqb name "Standalone Recordings" then
    Ok (mkAudioDirResult KAudio (Z.lor flags STANDALONE) [] files)
  else
    sorted ← sort_by_track_number files;
    let a := scan (scan_init flags) sorted in
    match s_errors a with
    | _ :: _ => Ok (mkAudioDirResult KAudio (s_flags a) (s_errors a) sorted)
    | [] =>
      let '(k, fl, errs) := post_scan a (length sorted) in
      Ok (mkAudioDirResult k fl errs sorted)
    end.

(* ------------------------------------------------------------------ *)
(** ** Index store: [LgIndexer.add_album] ([lgindexer.py])

    The two tables are lists of [(id, path)] rows.  Which SQL statement
    raises [sqlite3.Error] is an oracle over the statement sites of the
    function:
    0 [cursor()], 1-2 the exact-row SELECTs, 3-4 the other-path SELECTs,
    5-6 the INSERTs, 7 the COMMIT of [with self.db_handle:]. *)

Record DB := mkDB {
  release_groups : list (string * string);
  albums : list (string * string)
}.

Inductive log_level := LDebug | LInfo | LWarning | LError.

Abbreviation Log := (list (log_level * string)).

Definition sql (fail : nat -> bool) (site : nat) {A} (a : A) : outcome A :=
  if fail site then Raise SqliteError else Ok a.

(** [SELECT 1 FROM t WHERE id = ? AND path = ? LIMIT 1] *)
Definition row_exists (rows : list (string * string)) (id path : string) : bool :=
  existsb (fun r => String.eqb (fst r) id && String.eqb (snd r) path) rows.

(** [SELECT path FROM t WHERE id = ? AND path != ?] *)
Definition other_paths (rows : list (string * string)) (id path : string) : list string :=
  map snd (List.filter (fun r => String.eqb (fst r) id && negb (String.eqb (snd r) path)) rows).

(** [INSERT INTO t (id, path) VALUES (?, ?)], under [UNIQUE(id, path)] *)
Definition sql_insert (fail : nat -> bool) (site : nat) (rows : list (string * string))
    (id path : string) : outcome (list (string * string)) :=
  if fail site then Raise SqliteError
  else if row_exists rows id path then Raise SqliteError (* IntegrityError *)
  else Ok (rows ++ [(id, path)]).

(** [for row in rows: if row and row[0]: warning(...); duplicates_found = True] *)
Definition dup_warnings (msg : string) (paths : list string) : Log :=
  map (fun _ => (LWarning, msg)) (List.filter (fun p => negb (String.eqb p "")) paths).

(** The [try:] body.  It returns the database afterwards, the log, and
    [Raise SqliteError] when a statement raised: [with self.db_handle:]
    rolls the transaction back before the error propagates, so the
    database is then the one the call started from. *)
Definition add_album_try (fail : nat -> bool) (db : DB) (path rg aid : string)
    : DB * Log * outcome unit :=
  match
    (_ ← sql fail 0 tt;
     rg_exists ← sql fail 1 (row_exists (release_groups db) rg path);
     album_exists ← sql fail 2 (row_exists (albums db) aid path);
     if rg_exists && album_exists then
       Ok (db, [(LDebug, "Album already exists in database"%string)])
     else
     existing_rg_paths ← sql fail 3 (other_paths (release_groups db) rg path);
     existing_album_paths ← sql fail 4 (other_paths (albums db) aid path);
     let warns := dup_warnings "Same release group exists at multiple locations"%string existing_rg_paths
               ++ dup_warnings "Same album exists at multiple locations"%string existing_album_paths in
     match warns with
     | _ :: _ => Ok (db, warns ++ [(LWarning, "Album not added due to existing duplicates"%string)])
     | [] =>
       rgs ← (if rg_exists then Ok (release_groups db)
              else sql_insert fail 5 (release_groups db) rg path);
       als ← (if album_exists then Ok (albums db)
              else sql_insert fail 6 (albums db) aid path);
       _ ← sql fail 7 tt;
       Ok (mkDB rgs als, [(LInfo, "Album added to database"%string)])
     end)
  with
  | Ok (db', log) => (db', log, Ok tt)
  | Raise x => (db, [], Raise x)
  end.

(** Name resolution in [add_album]'s body: its local variables (fixed at
    compile time by the assignments in the function), then the globals of
    [lgindexer.py], then the builtins. *)
Definition add_album_locals : list string :=
  (["self"; "directory_path"; "releasegroup_id"; "album_id"; "path"; "cursor";
   "rg_exists"; "album_exists"; "existing_rg_paths"; "existing_album_paths";
   "duplicates_found"; "row"; "err"])%string.

Definition lgindexer_globals : list string :=
  (["__name__"; "__doc__"; "__file__"; "__builtins__"; "os"; "sqlite3"; "contextlib";
   "debug"; "info"; "warning"; "error"; "RLock"; "LgErr"; "LgException"; "LgIndexer"])%string.

Definition py_builtin_names : list string :=
  (["str"; "int"; "len"; "isinstance"; "print"; "Exception"; "NameError";
   "TypeError"; "ValueError"; "None"; "True"; "False"])%string.

(** Loading a name that is bound (the handler's locals [err], [path], ...
    are bound when it runs). *)
Definition load_name (n : string) : outcome unit :=
  if existsb (String.eqb n) (add_album_locals ++ lgindexer_globals ++ py_builtin_names)
  then Ok tt else Raise NameError.

(** [except sqlite3.Error as err:
       error(f"Error adding album to database: {str(e)}")
       raise LgException(LgErr.EDBERR, directory_path, ...)] *)
Definition add_album_handler : outcome unit :=
  _ ← load_name "e"%string;
  _ ← load_name "err"%string;
  Raise (LgException EDBERR).

(** [add_album(directory_path, releasegroup_id, album_id)]; callers pass a
    [Path] or a [str], modelled by its [str()]; the ids are [None] or a
    string. *)
Definition add_album (fail : nat -> bool) (db : DB) (directory_path : string)
    (releasegroup_id album_id : option string) : DB * Log * outcome unit :=
  if String.eqb directory_path "" then
    (db, [(LError, "Cannot add album with empty directory path"%string)], Ok tt)
  else
  match releasegroup_id, album_id with
  | Some rg, Some aid =>
    if String.eqb rg "" || String.eqb aid "" then
      (db, [(LError, "Cannot add album with empty IDs"%string)], Ok tt)
    else
    let '(db', log, r) := add_album_try fail db directory_path rg aid in
    match r with
    | Raise SqliteError => (db', log, add_album_handler)
    | _ => (db', log, r)
    end
  | _, _ => (db, [(LError, "Cannot add album with empty IDs"%string)], Ok tt)
  end.

(* ------------------------------------------------------------------ *)
(** ** [TrackInfo.freeze], [__hash__] and [__eq__] ([lgfile.py]) over
       CPython's hash functions

    [hash(int)] and the tuple hash (xxHash-based, 64-bit build) are
    written out.  [hash(str)] is SipHash keyed per process and [hash(None)]
    a per-process constant: both are section variables. *)

Open Scope Z_scope.

Inductive PyObj :=
  | PNone
  | PInt (z : Z)
  | PStr (s : string).

Definition PyHASH_MODULUS : Z := 2 ^ 61 - 1.

(** [long_hash]: the residue of |z| modulo 2^61 - 1 with the sign of z;
    -1 is reserved for errors and becomes -2. *)
Definition py_int_hash (z : Z) : Z :=
  let h := if (0 <=? z)%Z then z mod PyHASH_MODULUS
           else - ((- z) mod PyHASH_MODULUS) in
  if (h =? -1)%Z then -2 else h.

Definition u64 (z : Z) : Z := z mod 2 ^ 64.

(** Py_uhash_t back to Py_hash_t *)
Definition to_signed64 (z : Z) : Z := if (z <? 2 ^ 63)%Z then z else z - 2 ^ 64.

Definition XXPRIME_1 : Z := 11400714785074694791.
Definition XXPRIME_2 : Z := 14029467366897019727.
Definition XXPRIME_5 : Z := 2870177450012600261.

(** [_PyHASH_XXROTATE(x) = (x << 31) | (x >> 33)] on 64 bits: the two
    parts have disjoint bits, so the [|] is a sum. *)
Definition xxrotate (x : Z) : Z := (x mod 2 ^ 33) * 2 ^ 31 + x / 2 ^ 33.

Definition tuple_step (acc lane : Z) : Z :=
  u64 (xxrotate (u64 (acc + u64 lane * XXPRIME_2)) * XXPRIME_1).

(** [tuplehash]: no element hash is -1 here, so the error exit is never
    taken. *)
Definition py_tuple_hash (lanes : list Z) : Z :=
  let acc := fold_left tuple_step lanes XXPRIME_5 in
  let acc := u64 (acc + Z.lxor (Z.of_nat (length lanes)) (Z.lxor XXPRIME_5 3527539)) in
  if (acc =? 2 ^ 64 - 1)%Z then 1546275796 else to_signed64 acc.

Section TrackInfoHash.
Variable str_hash : string -> Z.
Variable none_hash : Z.

Definition py_hash (o : PyObj) : Z :=
  match o with
  | PNone => none_hash
  | PInt z => py_int_hash z
  | PStr s => str_hash s
  end.

Definition opt_int (o : option Z) : PyObj :=
  match o with None => PNone | Some z => PInt z end.
Definition opt_str (o : option string) : PyObj :=
  match o with None => PNone | Some s => PStr s end.

Definition is_none {A} (o : option A) : bool :=
  match o with None => true | Some _ => false end.

Definition is_standalone (ti : TrackInfo) : bool :=
  is_none (album_id ti) && is_none (releasegroup_id ti)
  && (is_none (track_number ti) || is_none (num_tracks ti))
  && (is_none (disc_number ti) || is_none (num_discs ti)).

(** The identity tuple of an album track *)
Definition identity_tuple (ti : TrackInfo) : list PyObj :=
  [opt_int (track_number ti); opt_int (num_tracks ti); opt_int (disc_number ti);
   opt_int (num_discs ti); opt_str (album_id ti); opt_str (releasegroup_id ti)].

(** The key of a standalone track *)
Definition standalone_tuple (ti : TrackInfo) : list PyObj :=
  [PStr (unique_id ti); opt_int (sample_rate ti); opt_int (bit_rate ti);
   opt_int (bit_depth ti); opt_int (duration_secs ti)].

Definition hash_tuple (ti : TrackInfo) : list PyObj :=
  if is_standalone ti then standalone_tuple ti else identity_tuple ti.

(** [freeze]: [self._hash = hash(hash_tuple)] *)
Definition frozen_hash (ti : TrackInfo) : Z := py_tuple_hash (map py_hash (hash_tuple ti)).

(** [hash(obj)] maps a [__hash__] result of -1 to -2. *)
Definition builtin_hash (h : Z) : Z := if (h =? -1)%Z then -2 else h.

(** [__eq__]: [hash(self) == hash(other)] *)
Definition trackinfo_eq (t1 t2 : TrackInfo) : bool :=
  Z.eqb (builtin_hash (frozen_hash t1)) (builtin_hash (frozen_hash t2)).

End TrackInfoHash.

(* ------------------------------------------------------------------ *)
(** ** Inputs and derived notions used by the properties *)

(** A FLAC file whose decode failed with a CodecError after a partial
    probe: [__new__] keeps it with verification state [ECORRUPTED]. *)
Definition ti_corrupted_flac : TrackInfo :=
  {| track_number := Some 1%Z; num_tracks := Some 10%Z; disc_number := Some 1%Z;
     num_discs := Some 1%Z; album_id := Some "album"%string;
     releasegroup_id := Some "group"%string;
     album_gain := None; album_peak := None; track_gain := None;
     track_peak := None; track_lra := None;
     sample_rate := Some 44100%Z; bit_rate := Some 900000%Z; bit_depth := Some 16%Z;
     duration_secs := Some 240%Z; unique_id := "3f2a9c"%string |}.

(** A finalisation with verification OK, tags updated, no deletion mark
    and no dry run. *)
Definition af_finalized : AudioFileExit := mkAudioFileExit EOK false true false true.

(** An album track as it comes out of [LgAudioFile.__init__]. *)
Definition album_track (tn : option Z) (nt : option Z) (aid : option string) : TrackInfo :=
  {| track_number := tn; num_tracks := nt; disc_number := Some 1; num_discs := Some 1;
     album_id := aid; releasegroup_id := aid;
     album_gain := None; album_peak := None; track_gain := None; track_peak := None;
     track_lra := None; sample_rate := Some 44100; bit_rate := Some 320000;
     bit_depth := Some 16; duration_secs := Some 200; unique_id := "0"%string |}.

Definition post_scan_flags (a : ScanAcc) (n : nat) : Z := snd (fst (post_scan a n)).
Definition post_scan_errors (a : ScanAcc) (n : nat) : list LgErr := snd (post_scan a n).

(** The indexer only ever stores paths that passed [add_album]'s
    [if not directory_path] guard. *)
Definition paths_nonempty (db : DB) : Prop :=
  Forall (fun r => snd r <> ""%string) (release_groups db) /\
  Forall (fun r => snd r <> ""%string) (albums db).

Definition has_warning (log : Log) : bool :=
  existsb (fun m => match fst m with LWarning => true | _ => false end) log.

(** The rows [add_album] leaves when it inserts what is missing. *)
Definition with_missing_rows (db : DB) (path rg aid : string) : DB :=
  mkDB (if row_exists (release_groups db) rg path then release_groups db
        else release_groups db ++ [(rg, path)])
       (if row_exists (albums db) aid path then albums db
        else albums db ++ [(aid, path)]).

(** An album track whose track number is 2^61: [hash(2**61) == hash(1)]. *)
Definition ti_track_2_61 : TrackInfo := album_track (Some (2 ^ 61)) (Some 12) (Some "b7c1"%string).

(** A standalone track: no album or release-group id, no counts. *)
Definition standalone_track (uid : string) : TrackInfo :=
  {| track_number := Some 3; num_tracks := None; disc_number := None; num_discs := None;
     album_id := None; releasegroup_id := None;
     album_gain := None; album_peak := None; track_gain := None; track_peak := None;
     track_lra := None; sample_rate := Some 44100; bit_rate := Some 320000;
     bit_depth := Some 16; duration_secs := Some 200; unique_id := uid |}.

(** A string hash with values in the range of [Py_hash_t]. *)
Definition len_hash (s : string) : Z := Z.of_nat (String.length s) mod 2 ^ 63.

(* ------------------------------------------------------------------ *)
(** ** Verification cache lookup: [LgFile._check_verification_ts_from_xattrs]
       ([lgfile.py]) *)

(** [LgFile._check_verification_ts_from_xattrs]: [int(st_mtime)] when the
    attribute holds that integer; [None] when it holds another integer,
    when it is missing ([OSError], logged at debug) or when its bytes do
    not parse ([ValueError], caught by [except Exception]). *)
Definition _check_verification_ts_from_xattrs (f : FileState) : option Z :=
  let mtime := fs_mtime f in
  match fs_xattr f with
  | Some (XNum check_ts) => if negb (Z.eqb mtime check_ts) then None else Some mtime
  | Some (XRaw _) => None
  | None => None
  end.

(** [exc_value is None or (isinstance(exc_value, LgException) and
    exc_value.error == LgErr.EOK)] *)
Definition exit_exc_ok (exc : exit_exc) : bool :=
  match exc with ExcNone => true | ExcLg e => LgErr_beq e EOK | ExcOther => false end.

(* ------------------------------------------------------------------ *)
(** ** Closing a directory: [LgDirectory._cleanup_files] and the file
       part of [LgDirectory.__exit__] ([lgdirectory.py]) *)

(** A slot of a directory's file list: a live audio file with the
    environment its [__exit__] meets, or [None] for a [None] entry or a
    file already exited ([_LgRipFile]). *)
Abbreviation FileSlot := (option (FsEnv * AudioFileExit * FileState)).

(** The exception a callback registered with an [ExitStack] leaves: the
    stack runs the callbacks last-registered first, keeps going when one
    raises, and re-raises the exception of the last one that raised,
    i.e. of the first file in list order. *)
Fixpoint first_raise (rs : list (option (outcome (option FileState)))) : outcome unit :=
  match rs with
  | [] => Ok tt
  | Some (Raise x) :: _ => Raise x
  | _ :: t => first_raise t
  end.

(** [LgDirectory._cleanup_files(error, file_list)] on an audio file list:
    what each slot's [__exit__] returned ([None]: not called) and the
    exception that leaves the [with ExitStack()] block. *)
Definition _cleanup_files (error : option LgErr) (file_list : list FileSlot)
    : list (option (outcome (option FileState))) * outcome unit :=
  let exc := match error with Some e => ExcLg e | None => ExcNone end in
  let results := map (fun slot => match slot with
                                  | Some (env, af, f) => Some (audio_file_exit env af exc f)
                                  | None => None
                                  end) file_list in
  (results, first_raise results).

(** The audio part of [LgDirectory.__exit__]:
    [withdraw_err = _pick_withdraw_err(self.errors)] then
    [_cleanup_files(withdraw_err, self.audio_files)]. *)
Definition dir_exit_audio (errors : list LgErr) (audio_files : list FileSlot)
    : list (option (outcome (option FileState))) * outcome unit :=
  _cleanup_files (Some (_pick_withdraw_err errors)) audio_files.

(* ------------------------------------------------------------------ *)
(** ** File classification: [LgFile._get_type] ([lgfile.py])

    Names and MIME types are ASCII strings. *)

(** [LgFormats] ([libguard/__init__.py]) *)
Inductive LgFormats := AUDIO | VIDEO | ARTWORK | MARKER | TEXT.

Section GetType.
Local Open Scope string_scope.


(** [str.lower()] on ASCII text *)
Definition ascii_lower (c : Ascii.ascii) : Ascii.ascii :=
  let n := Ascii.nat_of_ascii c in
  if ((65 <=? n) && (n <=? 90))%nat then Ascii.ascii_of_nat (n + 32) else c.

Fixpoint py_lower (s : string) : string :=
  match s with
  | EmptyString => EmptyString
  | String c r => String (ascii_lower c) (py_lower r)
  end.

(** [p.rfind(".")], [None] for -1 *)
Fixpoint rfind_dot (s : string) (i : nat) (acc : option nat) : option nat :=
  match s with
  | EmptyString => acc
  | String c r => rfind_dot r (S i) (if Ascii.eqb c "."%char then Some i else acc)
  end.

(** [os.path.splitext(name)[1]] for a directory entry name (no [/]):
    the suffix from the last dot, unless only dots precede it. *)
Definition py_splitext_ext (p : string) : string :=
  match rfind_dot p 0 None with
  | None => ""
  | Some dot =>
      if existsb (fun c => negb (Ascii.eqb c "."%char)) (list_ascii_of_string (substring 0 dot p))
      then substring dot (String.length p - dot) p
      else ""
  end.

(** [s.split('/')] *)
Fixpoint py_split_slash (s : string) : list string :=
  match s with
  | EmptyString => [""]
  | String c r =>
      let parts := py_split_slash r in
      if Ascii.eqb c "/"%char then "" :: parts
      else match parts with
           | p :: ps => String c p :: ps
           | [] => [String c ""]
           end
  end.

(** [a, b = s.split('/')]: unpacking raises ValueError unless there are
    exactly two parts. *)
Definition unpack_mimetype (s : string) : outcome (string * string) :=
  match py_split_slash s with
  | [major; minor] => Ok (major, minor)
  | _ => Raise ValueError
  end.

(** [LgFile._get_type]: the entry's name, [mimetypes.guess_type(path)[0]]
    (from the extension) and [magic.from_file(path, mime=True)] (from the
    content).  The inconsistency branches that only log are kept apart
    from the one that rejects the file. *)
Definition _get_type (name : string) (mimetype mimetype_magic : option string)
    : outcome (option LgFormats) :=
  if (String.eqb name "lock" || String.eqb name "locked" || String.eqb name "ignore")%string
  then Ok (Some MARKER) else
  let fext := py_lower (py_splitext_ext name) in
  match mimetype with
  | None => if String.eqb fext ".accurip" then Ok (Some TEXT) else Ok None
  | Some mimetype =>
  match mimetype_magic with
  | None => Ok None
  | Some mimetype_magic =>
  '(mimetype_magic_major, mimetype_magic_minor) ← unpack_mimetype mimetype_magic;
  '(mimetype_major, mimetype_minor) ← unpack_mimetype mimetype;
  let inconsistent :=
    if negb (String.eqb mimetype mimetype_magic) then
      if String.eqb mimetype_major mimetype_magic_major then false (* warning at most *)
      else if String.eqb mimetype "text/plain" && String.eqb mimetype_magic "inode/x-empty"
      then false (* debug: empty text file *)
      else if String.eqb mimetype "text/plain" || String.eqb mimetype_magic "text/plain"
      then false (* warning: inconsistent text file *)
      else if String.eqb mimetype "audio/mpeg" && String.eqb fext ".mp3"
              && String.eqb mimetype_magic "application/octet-stream"
      then false (* debug: headerless mp3 *)
      else if String.eqb mimetype "audio/mpeg" && String.eqb fext ".mp3"
      then false (* warning: inconsistent magic value on mp3 *)
      else true (* error: inconsistent file format *)
    else false in
  if inconsistent then Ok None else
  if String.eqb mimetype_major "audio" then Ok (Some AUDIO)
  else if String.eqb mimetype_major "image" || String.eqb mimetype "application/pdf"
  then Ok (Some ARTWORK)
  else if String.eqb mimetype_major "text" || String.eqb mimetype_magic_major "text"
  then Ok (Some TEXT)
  else if String.eqb mimetype_major "video" then Ok (Some VIDEO)
  else Ok None
  end
  end%string.

Definition is_marker_name (name : string) : bool :=
  (String.eqb name "lock" || String.eqb name "locked" || String.eqb name "ignore")%string.

End GetType.

(* ------------------------------------------------------------------ *)
(** ** Directory creation: [LgFile.__new__], [LgDirectory._process_file_entry]
       and [LgDirectory.__new__] ([lgfile.py], [lgdirectory.py]) *)

(** The file objects [LgFile(entry, opts)] returns; an audio file carries
    what its [__exit__] reads: the environment it meets, its fields and
    the file on disk. *)
Inductive LgFileObj :=
  | LgAudioFileObj (slot : FsEnv * AudioFileExit * FileState)
  | LgVideoFileObj
  | LgArtworkFileObj
  | LgMarkerFileObj
  | LgTextFileObj.

(** [LgFile.__new__] followed by [__init__]: the read access check, the
    result of [_get_type], and the creation of an audio file, which
    returns [None] when instantiating the handler class fails. *)
Definition lgfile_new (access_ok : bool) (ftype : outcome (option LgFormats))
    (audio_new : outcome (option LgFileObj)) : outcome (option LgFileObj) :=
  if negb access_ok then Raise (LgException EACCESS) else
  t ← ftype;
  match t with
  | None => Raise (LgException EINVFORMAT)
  | Some AUDIO => audio_new
  | Some VIDEO => Ok (Some LgVideoFileObj)
  | Some ARTWORK => Ok (Some LgArtworkFileObj)
  | Some MARKER => Ok (Some LgMarkerFileObj)
  | Some TEXT => Ok (Some LgTextFileObj)
  end.

(** The first component of [_process_file_entry]'s result: [None], an
    error code, or a file object. *)
Inductive EntryResult :=
  | ResNone
  | ResErr (e : LgErr)
  | ResFile (f : LgFileObj).

(** [LgDirectory._process_file_entry]: the flag of each file class; an
    [LgException] becomes its error code, any other exception is
    re-raised. *)
Definition _process_file_entry (is_file : bool) (created : outcome (option LgFileObj))
    : outcome (EntryResult * option Z) :=
  if negb is_file then Ok (ResNone, None) else
  match created with
  | Ok (Some (LgAudioFileObj st)) => Ok (ResFile (LgAudioFileObj st), Some HAS_AUDIO)
  | Ok (Some LgArtworkFileObj) => Ok (ResFile LgArtworkFileObj, Some HAS_ARTWORK)
  | Ok (Some LgVideoFileObj) => Ok (ResFile LgVideoFileObj, Some HAS_VIDEO)
  | Ok (Some LgTextFileObj) => Ok (ResFile LgTextFileObj, Some HAS_TEXT)
  | Ok (Some LgMarkerFileObj) => Ok (ResFile LgMarkerFileObj, Some HAS_MARKER)
  | Ok None => Ok (ResNone, None)
  | Raise (LgException e) => Ok (ResErr e, None)
  | Raise x => Raise x
  end.

(** A directory entry: a regular file with the result its worker returns,
    a subdirectory, or something else. *)
Inductive DirEntryKind :=
  | EntFile (result : outcome (EntryResult * option Z))
  | EntDir
  | EntOther.

Record DirScan := mkDirScan {
  ds_flags : Z;
  ds_errors : list LgErr;
  ds_audio_files : list LgFileObj;
  ds_artwork_files : list LgFileObj;
  ds_video_files : list LgFileObj;
  ds_text_files : list LgFileObj
}.

Definition flag_is (flag : option Z) (f : Z) : bool :=
  match flag with Some g => Z.eqb g f | None => false end.

(** One iteration of the [as_completed] loop. *)
Definition dir_scan_step (a : DirScan) (result : EntryResult) (flag : option Z) : DirScan :=
  match result with
  | ResErr e => mkDirScan (ds_flags a) (ds_errors a ++ [e]) (ds_audio_files a)
                  (ds_artwork_files a) (ds_video_files a) (ds_text_files a)
  | ResNone => a
  | ResFile f =>
    if flag_is flag HAS_AUDIO then
      mkDirScan (Z.lor (ds_flags a) HAS_AUDIO) (ds_errors a) (ds_audio_files a ++ [f])
        (ds_artwork_files a) (ds_video_files a) (ds_text_files a)
    else if flag_is flag HAS_ARTWORK then
      mkDirScan (Z.lor (ds_flags a) HAS_ARTWORK) (ds_errors a) (ds_audio_files a)
        (ds_artwork_files a ++ [f]) (ds_video_files a) (ds_text_files a)
    else if flag_is flag HAS_VIDEO then
      mkDirScan (Z.lor (ds_flags a) HAS_VIDEO) (ds_errors a) (ds_audio_files a)
        (ds_artwork_files a) (ds_video_files a ++ [f]) (ds_text_files a)
    else if flag_is flag HAS_TEXT then
      mkDirScan (Z.lor (ds_flags a) HAS_TEXT) (ds_errors a) (ds_audio_files a)
        (ds_artwork_files a) (ds_video_files a) (ds_text_files a ++ [f])
    else if flag_is flag HAS_MARKER then
      mkDirScan (Z.lor (ds_flags a) HAS_MARKER) (ds_errors a) (ds_audio_files a)
        (ds_artwork_files a) (ds_video_files a) (ds_text_files a)
    else a
  end.

(** The loop over the futures in completion order; [future.result()]
    re-raises what the worker raised. *)
Fixpoint dir_scan (a : DirScan) (completed : list (outcome (EntryResult * option Z)))
    : outcome DirScan :=
  match completed with
  | [] => Ok a
  | Raise x :: _ => Raise x
  | Ok (result, flag) :: rest => dir_scan (dir_scan_step a result flag) rest
  end.

Inductive DirClass :=
  | LgFailedDirectory | LgIntermediateDirectory | LgArtworkDirectory
  | LgVideoDirectory | LgInfoDirectory | LgAudioDirectory
  | LgDirtyLeafDirectory | LgDirtyIntermediateDirectory.

Record NewDir := mkNewDir {
  nd_class : DirClass;
  nd_flags : Z;
  nd_errors : list LgErr;
  nd_audio_files : list LgFileObj
}.

(** The slot of an entry of [audio_files] (only audio files go there). *)
Definition audio_slot (o : LgFileObj) : FileSlot :=
  match o with LgAudioFileObj slot => Some slot | _ => None end.

Definition file_results (entries : list DirEntryKind) : list (outcome (EntryResult * option Z)) :=
  flat_map (fun e => match e with EntFile r => [r] | _ => [] end) entries.

Definition has_dir_entry (entries : list DirEntryKind) : bool :=
  existsb (fun e => match e with EntDir => true | _ => false end) entries.

(** [LgDirectory.__new__] for a directory whose [scandir] gave
    [direntries] ([None] when it raised), the file results arriving in
    the order [completed] (a permutation of [file_results direntries]).
    Besides the outcome it returns whether [shutil.rmtree] was called.
    Of the [_cleanup_files] calls only the audio ones are written out:
    nothing is marked for deletion yet, so [LgFile.__exit__] of an
    artwork, video or text file does nothing and cannot raise. *)
Definition lgdirectory_new (dryrun : bool) (direntries : option (list DirEntryKind))
    (completed : list (outcome (EntryResult * option Z))) : bool * outcome NewDir :=
  match direntries with
  | None => (false, Raise (LgException EACCESS))
  | Some [] => (negb dryrun, Raise (LgException EEMPTY))
  | Some entries =>
    let flags0 := if has_dir_entry entries then Z.lor 0 HAS_SUBDIRS else 0 in
    (false,
     a ← dir_scan (mkDirScan flags0 [] [] [] [] []) completed;
     let flags := ds_flags a in
     let errors := ds_errors a in
     if flag_in HAS_MARKER flags then
       _ ← snd (_cleanup_files None (map audio_slot (ds_audio_files a)));
       Raise (LgException EIGNORE) else
     if negb (Nat.eqb (length errors) 0) then
       _ ← snd (_cleanup_files (Some (_pick_withdraw_err errors))
                  (map audio_slot (ds_audio_files a)));
       Ok (mkNewDir LgFailedDirectory flags errors [])
     else if Z.eqb flags HAS_SUBDIRS then Ok (mkNewDir LgIntermediateDirectory flags errors [])
     else if Z.eqb flags HAS_ARTWORK then
       Ok (mkNewDir LgArtworkDirectory (Z.lor flags PART_OF_SET) errors [])
     else if Z.eqb flags HAS_VIDEO then
       Ok (mkNewDir LgVideoDirectory (Z.lor flags PART_OF_SET) errors [])
     else if Z.eqb flags HAS_TEXT then
       Ok (mkNewDir LgInfoDirectory (Z.lor flags PART_OF_SET) errors [])
     else if flag_in HAS_AUDIO flags then
       Ok (mkNewDir LgAudioDirectory flags errors (ds_audio_files a))
     else if negb (flag_in HAS_SUBDIRS flags) then
       Ok (mkNewDir LgDirtyLeafDirectory flags errors [])
     else Ok (mkNewDir LgDirtyIntermediateDirectory flags errors []))
  end.

(** What a worker contributes, by what [LgFile(entry, opts)] gave. *)
Definition created_flag (c : outcome (option LgFileObj)) : Z :=
  match c with
  | Ok (Some (LgAudioFileObj _)) => HAS_AUDIO
  | Ok (Some LgArtworkFileObj) => HAS_ARTWORK
  | Ok (Some LgVideoFileObj) => HAS_VIDEO
  | Ok (Some LgTextFileObj) => HAS_TEXT
  | Ok (Some LgMarkerFileObj) => HAS_MARKER
  | _ => 0
  end.

Definition created_errors (c : outcome (option LgFileObj)) : list LgErr :=
  match c with Raise (LgException e) => [e] | _ => [] end.

Definition created_audio (c : outcome (option LgFileObj)) : list LgFileObj :=
  match c with Ok (Some (LgAudioFileObj st)) => [LgAudioFileObj st] | _ => [] end.

(** The worker returns: creating the file object raised nothing but
    [LgException]. *)
Definition worker_returns (c : outcome (option LgFileObj)) : bool :=
  match c with Raise (LgException _) | Ok _ => true | Raise _ => false end.

Definition flags_of (created : list (outcome (option LgFileObj))) : Z :=
  fold_right (fun c acc => Z.lor (created_flag c) acc) 0 created.


(** No bit from [WITHDRAWN] (bit 6) upwards is set. *)
Definition low_flags (x : Z) : Prop := forall k, 6 <= k -> Z.testbit x k = false.

(* ------------------------------------------------------------------ *)
(** ** Audio file creation: [LgAudioFile.__new__] ([lgfile.py]) *)

(** The stream properties the analyser reports (ints from the C
    extension). *)
Record Probe := mkProbe {
  pr_format_name : string;
  pr_sample_rate : Z;
  pr_bit_rate : Z;
  pr_bit_depth : Z
}.

(** The subclass of [AunalyzerException] raised. *)
Inductive aunalyzer_error := AunCodecError | AunEBU128Error | AunOtherError.

(** [Aunalyzer.analyze(...)]: results, or an exception carrying a
    partially filled structure or none. *)
Inductive analysis :=
  | Analyzed (p : Probe)
  | AnalysisFailed (err : aunalyzer_error) (partial : option Probe).

Record FormatInfo := mkFormatInfo {
  fi_extension : string;
  fi_min_bitrate : Z;
  fi_format_weight : float
}.

(** [LgAudioFile.FORMAT_MAP], filled by [__init_subclass__] from the class
    keywords of [LgMP3File], [LgOggFile], [LgFlacFile] (whose
    [min_bitrate] is the keyword default 0) and [LgWavpackFile]. *)
Definition FORMAT_MAP (format_name : string) : option FormatInfo :=
  if String.eqb format_name "mp3"%string then Some (mkFormatInfo ".mp3"%string 128000 0.55)
  else if String.eqb format_name "ogg"%string then Some (mkFormatInfo ".ogg"%string 112000 0.7)
  else if String.eqb format_name "flac"%string then Some (mkFormatInfo ".flac"%string 0 1.0)
  else if String.eqb format_name "wavpack"%string then Some (mkFormatInfo ".wv"%string 0 0.95)
  else None.

Definition MIN_SRATE : Z := 44100.

(** [LgAudioFile.__new__]: the format entry and the verification state
    the new instance gets; [tags_ok] is whether [tag_class(path)] opened
    the file, [instance_ok] whether [handler_class.__new__] succeeded
    ([None] is returned otherwise). *)
Definition audio_file_new (a : analysis) (tags_ok instance_ok : bool)
    : outcome (option (FormatInfo * option LgErr)) :=
  '(probe, status) ←
    match a with
    | Analyzed p => Ok (p, Some EOK)
    | AnalysisFailed err (Some p) =>
        Ok (p, match err with
               | AunCodecError => Some ECORRUPTED
               | AunEBU128Error => Some ERGAIN
               | AunOtherError => None
               end)
    | AnalysisFailed _ None => Raise (LgException EINVFORMAT)
    end;
  match FORMAT_MAP (pr_format_name probe) with
  | None => Raise (LgException EINVFORMAT)
  | Some format_info =>
    let min_bitrate := fi_min_bitrate format_info in
    let status :=
      match status with
      | Some ECORRUPTED => status
      | _ =>
        let status := if (0 <? min_bitrate) && (pr_bit_rate probe <? min_bitrate)
                      then Some EINVBRATE else status in
        let status := if pr_sample_rate probe <? MIN_SRATE then Some EINVSRATE else status in
        if pr_bit_depth probe <? 16 then Some EINVBITS else status
      end in
    if negb tags_ok then Raise (LgException EINVTAGS)
    else if negb instance_ok then Ok None
    else Ok (Some (format_info, status))
  end.

(* ------------------------------------------------------------------ *)
(** ** Ordering duplicates: [LgAudioFile._compare_duration] and
       [LgAudioFile.__lt__] ([lgfile.py]) *)

(** A Python int or float result. *)
Inductive py_number := NInt (z : Z) | NFloat (f : float).

(** Python's [x or 0] on an optional int duration. *)
Definition or_zero (d : option Z) : Z := match d with Some z => z | None => 0 end.

(** [LgAudioFile._compare_duration]: [reference] is what
    [_fetch_musicbrainz_duration_secs] returns, consulted only when the
    durations differ by more than 2 seconds; [None] is the Python [None]
    result. *)
Definition _compare_duration (self_d other_d : option Z) (reference : option float)
    : option py_number :=
  let self_duration := or_zero self_d in
  let other_duration := or_zero other_d in
  if (self_duration =? 0) && (0 <? other_duration) then Some (NInt (-1))
  else if (0 <? self_duration) && (other_duration =? 0) then Some (NInt 1)
  else if Z.abs (self_duration - other_duration) <=? 2 then Some (NInt 0)
  else match reference with
       | Some reference_duration =>
           let my_diff := PrimFloat.abs (float_of_Z self_duration - reference_duration)%float in
           let other_diff := PrimFloat.abs (float_of_Z other_duration - reference_duration)%float in
           if (2 <? PrimFloat.abs (my_diff - other_diff))%float
           then Some (NInt (if (my_diff <? other_diff)%float then 1 else -1))
           else Some (NInt 0)
       | None =>
           if Z.abs (self_duration - other_duration) <=? 5
           then Some (NFloat (if other_duration <? self_duration then 0.5 else -0.5))
           else None
       end.

Definition py_number_neg (n : py_number) : py_number :=
  match n with NInt z => NInt (- z) | NFloat f => NFloat (- f)%float end.

(** [n * w] for an int or float [n] and a float [w] *)
Definition py_number_mul_float (n : py_number) (w : float) : float :=
  match n with NInt z => (float_of_Z z * w)%float | NFloat f => (f * w)%float end.

Inductive lt_result := LtNotImplemented | LtBool (b : bool).

Section AudioLt.
Variable str_hash : string -> Z.
Variable none_hash : Z.

(** [LgAudioFile.__lt__] between two audio files. *)
Definition audio_lt (self other : AudioFileQM) (reference : option float)
    : outcome lt_result :=
  if negb (trackinfo_eq str_hash none_hash (af_track_info self) (af_track_info other))
  then Ok LtNotImplemented
  else
  match _compare_duration (duration_secs (af_track_info self))
          (duration_secs (af_track_info other)) reference with
  | None => Raise ValueError
  | Some duration_score =>
      let self_normalized_quality := match get_qm self with Some q => q | None => 0.0%float end in
      let other_normalized_quality := match get_qm other with Some q => q | None => 0.0%float end in
      let quality_score := (self_normalized_quality - other_normalized_quality)%float in
      let final_score := (quality_score * 0.6 + py_number_mul_float duration_score 0.4)%float in
      if (final_score =? 0)%float then Ok (LtBool false)
      else Ok (LtBool (final_score <? 0)%float)
  end.
End AudioLt.

(* ------------------------------------------------------------------ *)
(** ** Registration: [LgAudioDirectory.register] ([lgdirectory.py]) *)

(** [get_path()]: [new_path] once withdrawn, else [dentry_path];
    [paths i] is the pair ([dentry_path], [new_path]) of directory [i]. *)
Definition dir_get_path (paths : nat -> string * option string) (i : nat) (d : Dir)
    : option string :=
  if flag_in WITHDRAWN (d_flags d) then snd (paths i) else Some (fst (paths i)).

(** The path argument of [add_album]: [None] fails its
    [if not directory_path] check as [""] does. *)
Definition path_arg (p : option string) : string :=
  match p with Some s => s | None => ""%string end.

(** [LgAudioDirectory.register(indexer)]; [first_track] is the track info
    of [self.audio_files[0]] (an audio directory holds at least one
    audio file); the store holds [self]. *)
Definition register (fail : nat -> bool) (paths : nat -> string * option string)
    (first_track : TrackInfo) (st : DirStore) (self : nat) (db : DB)
    : DB * Log * outcome LgErr :=
  match st !! self with
  | None => (db, [], Ok EOK)
  | Some d =>
    if negb (Nat.eqb (length (d_errors d)) 0) then (db, [], Ok (_pick_withdraw_err (d_errors d)))
    else
    match album_id first_track, releasegroup_id first_track with
    | Some aid, Some rg =>
      let target :=
        match (if flag_in PART_OF_SET (d_flags d) then d_parent d else None) with
        | Some p => match st !! p with Some pd => dir_get_path paths p pd | None => None end
        | None => Some (fst (paths self))
        end in
      let '(db', log, r) := add_album fail db (path_arg target) (Some rg) (Some aid) in
      match r with
      | Raise (LgException _) =>
          (db', log ++ [(LWarning, "Failed to register album"%string)], Ok EOK)
      | Raise x => (db', log, Raise x)
      | Ok _ => (db', log, Ok EOK)
      end
    | _, _ => (db, [], Ok EMISSINGTAGS)
    end
  end.

(* ------------------------------------------------------------------ *)
(** ** Tag parsing: [LgFile._get_int_from_tag] and
       [LgFile._get_intpair_from_tag] ([lgfile.py])

    A tag value is the Python [str] [_get_string_from_tag] returned, as
    its list of code points.  The character classes are those of
    Python 3.11's [unicodedata] (Unicode 14.0). *)

Abbreviation pystr := (list Z).

Definition in_ranges (rs : list (Z * Z)) (c : Z) : bool :=
  existsb (fun r => (fst r <=? c) && (c <=? snd r)) rs.

(** The characters [str.isspace()] accepts. *)
Definition space_ranges : list (Z * Z) :=
  [(9, 13); (28, 32); (133, 133); (160, 160); (5760, 5760); (8192, 8202);
   (8232, 8233); (8239, 8239); (8287, 8287); (12288, 12288)].

(** The decimal digits (category Nd: [str.isdecimal()], and what [\d]
    matches in a [str] pattern) come in runs of ten code points, of
    values 0 to 9; these are the first code points of the runs. *)
Definition decimal_starts : list Z :=
  [48; 1632; 1776; 1984; 2406; 2534; 2662; 2790; 2918; 3046; 3174; 3302; 3430;
   3558; 3664; 3792; 3872; 4160; 4240; 6112; 6160; 6470; 6608; 6784; 6800;
   6992; 7088; 7232; 7248; 42528; 43216; 43264; 43472; 43504; 43600; 44016;
   65296; 66720; 68912; 69734; 69872; 69942; 70096; 70384; 70736; 70864;
   71248; 71360; 71472; 71904; 72016; 72784; 73040; 73120; 92768; 92864;
   93008; 120782; 120792; 120802; 120812; 120822; 123200; 123632; 125264;
   130032].

Definition decimal_ranges : list (Z * Z) := map (fun s => (s, s + 9)) decimal_starts.

(** The characters [str.isdigit()] accepts besides the decimal digits
    (Numeric_Type=Digit: superscripts, subscripts, circled digits, ...). *)
Definition other_digit_ranges : list (Z * Z) :=
  [(178, 179); (185, 185); (4969, 4977); (6618, 6618); (8304, 8304);
   (8308, 8313); (8320, 8329); (9312, 9320); (9332, 9340); (9352, 9360);
   (9450, 9450); (9461, 9469); (9471, 9471); (10102, 10110); (10112, 10120);
   (10122, 10130); (68160, 68163); (69216, 69224); (69714, 69722);
   (127232, 127242)].

Definition py_isspace_cp (c : Z) : bool := in_ranges space_ranges c.
Definition py_isdecimal_cp (c : Z) : bool := in_ranges decimal_ranges c.
Definition py_isdigit_cp (c : Z) : bool :=
  py_isdecimal_cp c || in_ranges other_digit_ranges c.

(** [unicodedata.decimal(c)] of a decimal digit. *)
Definition decimal_value_cp (c : Z) : Z :=
  match find (fun s => (s <=? c) && (c <=? s + 9)) decimal_starts with
  | Some s => c - s
  | None => 0
  end.

(** [s.isdigit()] *)
Definition str_isdigit (s : pystr) : bool :=
  match s with [] => false | _ => forallb py_isdigit_cp s end.

(** [s.isdecimal()] *)
Definition str_isdecimal (s : pystr) : bool :=
  match s with [] => false | _ => forallb py_isdecimal_cp s end.

(** The number a string of decimal digits denotes. *)
Definition decimal_value (s : pystr) : Z :=
  fold_left (fun acc c => acc * 10 + decimal_value_cp c) s 0.

Fixpoint lstrip (cs : pystr) : pystr :=
  match cs with
  | [] => []
  | c :: t => if py_isspace_cp c then lstrip t else cs
  end.

(** [s.strip()] *)
Definition py_strip (cs : pystr) : pystr :=
  rev (lstrip (rev (lstrip cs))).

(** [sys.get_int_max_str_digits()] at its default: [int()] refuses more
    digits than this, leading zeros included. *)
Definition int_max_str_digits : Z := 4300.

(** [int(s)] on the strings it gets here, whose [strip()] is made of
    characters [str.isdigit()] accepts (no sign, no underscore): it
    converts the stripped string when all its characters are decimal
    digits and there are at most [int_max_str_digits] of them, and raises
    ValueError otherwise (e.g. on U+00B2, superscript two, which
    [isdigit()] accepts). *)
Definition py_int (s : pystr) : outcome Z :=
  let t := py_strip s in
  if str_isdecimal t && (Z.of_nat (length t) <=? int_max_str_digits)
  then Ok (decimal_value t) else Raise ValueError.

(** [re.search(r'\d+', s).group(0)]: the leftmost maximal run of decimal
    digits. *)
Fixpoint take_digits (cs : pystr) : pystr :=
  match cs with
  | [] => []
  | c :: t => if py_isdecimal_cp c then c :: take_digits t else []
  end.

Fixpoint search_digits (cs : pystr) : option pystr :=
  match cs with
  | [] => None
  | c :: t => if py_isdecimal_cp c then Some (take_digits cs) else search_digits t
  end.

(** [LgFile._get_int_from_tag], from the value [_get_string_from_tag]
    returned: a ValueError or TypeError of the conversion becomes
    [LgException(EINVTAGS)]. *)
Definition _get_int_from_tag (str_value : option pystr) : outcome (option Z) :=
  match str_value with
  | None => Ok None
  | Some s =>
    let r := match search_digits s with
             | Some m => v ← py_int m; Ok (Some v)
             | None => if str_isdigit (py_strip s) then v ← py_int s; Ok (Some v)
                       else Ok None
             end in
    match r with
    | Raise ValueError | Raise TypeError => Raise (LgException EINVTAGS)
    | _ => r
    end
  end.

(** The code point of the default separator ["/"]. *)
Definition SLASH : Z := 47.

(** [s.split(sep)] *)
Fixpoint py_split_on (sep : Z) (cs : pystr) : list pystr :=
  match cs with
  | [] => [[]]
  | c :: t =>
    if Z.eqb c sep then [] :: py_split_on sep t
    else match py_split_on sep t with
         | w :: ws => (c :: w) :: ws
         | [] => [[c]]
         end
  end.

(** [int(p) if p and p.isdigit() else None] *)
Definition int_if_digits (p : option pystr) : outcome (option Z) :=
  match p with
  | Some cs => if str_isdigit cs then v ← py_int cs; Ok (Some v) else Ok None
  | None => Ok None
  end.

(** [LgFile._get_intpair_from_tag] with the default separator ["/"]:
    every exception becomes [LgException(EINVTAGS)]. *)
Definition _get_intpair_from_tag (tag_value : option pystr)
    : outcome (option Z * option Z) :=
  match tag_value with
  | None => Ok (None, None)
  | Some s =>
    let r := if existsb (Z.eqb SLASH) s then
               let parts := map Some (py_split_on SLASH s) ++ [None] in
               first_value ← int_if_digits (nth 0 parts None);
               second_value ← int_if_digits (nth 1 parts None);
               Ok (first_value, second_value)
             else
               first_value ← (if str_isdigit s then v ← py_int s; Ok (Some v) else Ok None);
               Ok (first_value, None) in
    match r with
    | Raise _ => Raise (LgException EINVTAGS)
    | Ok v => Ok v
    end
  end.

(* ------------------------------------------------------------------ *)
(** ** Index invariants ([lgindexer.py]) *)

Definition rg_dup_msg : string := "Same release group exists at multiple locations".
Definition album_dup_msg : string := "Same album exists at multiple locations".

(** Each release-group id and each album id occurs in at most one row. *)
Definition ids_unique (db : DB) : Prop :=
  NoDup (map fst (release_groups db)) /\ NoDup (map fst (albums db)).

(* ------------------------------------------------------------------ *)
(** ** Further inputs *)

(** The same album track as [ti_corrupted_flac], ten seconds longer. *)
Definition ti_corrupted_flac_longer : TrackInfo :=
  {| track_number := Some 1%Z; num_tracks := Some 10%Z; disc_number := Some 1%Z;
     num_discs := Some 1%Z; album_id := Some "album"%string;
     releasegroup_id := Some "group"%string;
     album_gain := None; album_peak := None; track_gain := None;
     track_peak := None; track_lra := None;
     sample_rate := Some 44100%Z; bit_rate := Some 900000%Z; bit_depth := Some 16%Z;
     duration_secs := Some 250%Z; unique_id := "77b0e1"%string |}.

(* ================================================================== *)
(** * Properties *)

Ltac split_ifs :=
  repeat match goal with
         | |- context [if ?b then _ else _] => destruct b
         end.

(** Small evaluations of [pick_worst]. *)
Example pick_worst_ex1 : _pick_withdraw_err [ECORRUPTED; EINVTAGS; EINVBRATE] = EINVTAGS.
Proof. reflexivity. Qed.

Example pick_worst_ex2 : _pick_withdraw_err [ERGAIN] = EUNKNOWN.
Proof. reflexivity. Qed.

(** C1: [_pick_withdraw_err] returns the first kind of INVALID_FORMAT,
    INVALID_TAGS, MISSING_TAGS, INCONSISTENT, CORRUPTED,
    INVALID_SAMPLE_RATE, INVALID_BIT_RATE present in the bag, UNKNOWN on a
    non-empty bag containing none of them, and OK on the empty bag. *)
Theorem pick_withdraw_err_first_present :
  forall errors : list LgErr, _pick_withdraw_err errors = pick_worst_spec errors.
Proof.
  intros [|e l]; [reflexivity|].
  unfold _pick_withdraw_err, pick_worst_spec; cbn [length Nat.eqb find withdraw_order].
  split_ifs; reflexivity.
Qed.

(** C2 (counterexample): [pick_worst] is not idempotent on every kind:
    [_pick_withdraw_err [EINVBITS] = EUNKNOWN]. *)
Lemma pick_withdraw_err_not_idempotent :
  ~ (forall x : LgErr, _pick_withdraw_err [x] = x).
Proof. intros H. specialize (H EINVBITS). discriminate H. Qed.

(** C2 (amended): [pick_worst {x} = x] exactly for the seven ranked kinds
    and UNKNOWN; for every other kind, OK included, [pick_worst {x}] is
    UNKNOWN; and adding any kind to a bag never lowers the severity of
    the selected kind (ranked kinds in their order, then UNKNOWN, then OK). *)
Theorem pick_withdraw_err_idempotent_monotone :
  (forall x : LgErr, _pick_withdraw_err [x] = x <-> In x (withdraw_order ++ [EUNKNOWN])) /\
  (forall x : LgErr, ~ In x (withdraw_order ++ [EUNKNOWN]) -> _pick_withdraw_err [x] = EUNKNOWN) /\
  (forall (k : LgErr) (errors : list LgErr),
     severity (_pick_withdraw_err errors) <= severity (_pick_withdraw_err (k :: errors)))%nat.
Proof.
  split; [|split].
  - intros x; destruct x; cbn; intuition discriminate.
  - intros x Hx; destruct x; cbn in *; try reflexivity; exfalso; tauto.
  - intros k [|e l]; [destruct k; cbn; lia|].
    unfold _pick_withdraw_err.
    change (err_in ?X (k :: ?L)) with (LgErr_beq X k || err_in X L).
    cbn [length Nat.eqb].
    destruct k; cbn [LgErr_beq orb]; split_ifs; cbn; lia.
Qed.

(** C3 (code_bug): for a file whose verification state is [ECORRUPTED],
    [__init__]'s [_calculate_quality_metric] sets [_quality_metric] to
    None and then falls through and overwrites it, so [get_qm] is not
    None, whatever [math.log2] and [math.exp] return. *)
Theorem qm_not_null_after_failed_verification :
  forall (log2f expf : float -> float),
  match init_quality_metric log2f expf ti_corrupted_flac ECORRUPTED 1.0%float with
  | Ok f => get_qm f <> None
  | Raise _ => False
  end.
Proof. intros log2f expf. vm_compute. discriminate. Qed.

(** C4 (counterexample): on a filesystem where [setxattr] fails, a file
    finalized with verification OK, tags updated and saved, not marked
    for deletion and not in dry run, keeps no verification timestamp and
    keeps its group-write bit (mode 0o664). *)
Lemma verification_ts_missing_when_setxattr_fails :
  match audio_file_exit (mkFsEnv false true true 1700000100%Z) af_finalized ExcNone
          (mkFileState 1700000000%Z None 436%Z) with
  | Ok (Some f') => fs_xattr f' <> Some (XNum (fs_mtime f')) /\ Z.testbit (fs_mode f') 4 = true
  | _ => False
  end.
Proof. vm_compute. split; [discriminate | reflexivity]. Qed.

Lemma testbit_clear_S_IWGRP (m : Z) : Z.testbit (Z.land m (Z.lnot S_IWGRP)) 4 = false.
Proof.
  rewrite Z.land_spec, Z.lnot_spec by lia.
  replace (Z.testbit S_IWGRP 4) with true by reflexivity.
  now rewrite andb_false_r.
Qed.

(** C4 (amended): for a file finalized with verification OK, tags updated
    and saved, not marked for deletion and not in dry run, whose attribute
    is absent or numeric: the file's mtime is the one after the save; if
    the attribute already held it, nothing else changes; otherwise a
    successful [setxattr] leaves the attribute equal to the mtime, a
    successful [chmod] after it clears the group-write bit, and a failing
    [setxattr] (resp. [chmod]) leaves the attribute and the mode (resp.
    the mode) unchanged. *)
Theorem verification_ts_after_finalize :
  forall (env : FsEnv) (af : AudioFileExit) (exc : exit_exc) (f : FileState),
    ax_verification_state af = EOK ->
    (exc = ExcNone \/ exc = ExcLg EOK) ->
    ax_should_delete af = false ->
    ax_dryrun af = false ->
    ax_tags_updated af = true ->
    save_ok env = true ->
    (forall s, fs_xattr f <> Some (XRaw s)) ->
    exists f',
      audio_file_exit env af exc f = Ok (Some f') /\
      fs_mtime f' = save_mtime env /\
      (fs_xattr f = Some (XNum (save_mtime env)) ->
         fs_xattr f' = fs_xattr f /\ fs_mode f' = fs_mode f) /\
      (fs_xattr f <> Some (XNum (save_mtime env)) ->
         (setxattr_ok env = true -> fs_xattr f' = Some (XNum (fs_mtime f'))) /\
         (setxattr_ok env = true -> chmod_ok env = true ->
            Z.testbit (fs_mode f') 4 = false) /\
         (setxattr_ok env = true -> chmod_ok env = false -> fs_mode f' = fs_mode f) /\
         (setxattr_ok env = false -> fs_xattr f' = fs_xattr f /\ fs_mode f' = fs_mode f)).
Proof.
  intros env [vs del tu dry] exc f Hvs Hexc Hdel Hdry Htu Hsave Hraw;
    cbn in Hvs, Hdel, Hdry, Htu; subst.
  assert (Hexc' : match exc with ExcNone => true | ExcLg e => LgErr_beq e EOK
                  | ExcOther => false end = true)
    by (destruct Hexc; subst; reflexivity).
  unfold audio_file_exit; cbn [ax_verification_state ax_should_delete ax_dryrun
    ax_tags_updated LgErr_beq andb negb]; rewrite Hexc', Hsave; cbn.
  unfold _update_verification_ts_on_xattrs, read_verification_ts; cbn.
  destruct (fs_xattr f) as [[z|s]|] eqn:Hx.
  - cbn. destruct (Z.eqb_spec (save_mtime env) z) as [<-|Hne]; cbn.
    + eexists; split; [reflexivity|]; cbn; repeat split; try congruence.
    + destruct (setxattr_ok env) eqn:Hs; [destruct (chmod_ok env) eqn:Hc|];
        (eexists; split; [reflexivity|]); cbn;
        repeat split; intros; try congruence; try apply testbit_clear_S_IWGRP.
  - exfalso; exact (Hraw s eq_refl).
  - cbn. destruct (setxattr_ok env) eqn:Hs; [destruct (chmod_ok env) eqn:Hc|];
      (eexists; split; [reflexivity|]); cbn;
      repeat split; intros; try congruence; try apply testbit_clear_S_IWGRP.
Qed.

(** Witness of the C4 theorem at a concrete finalisation. *)
Lemma verification_ts_after_finalize_witness :
  exists f',
    audio_file_exit (mkFsEnv true true true 1700000100%Z) af_finalized ExcNone
      (mkFileState 1700000000%Z (Some (XNum 1600000000%Z)) 436%Z) = Ok (Some f') /\
    fs_mtime f' = 1700000100%Z /\
    (Some (XNum 1600000000%Z) = Some (XNum 1700000100%Z) ->
       fs_xattr f' = Some (XNum 1600000000%Z) /\ fs_mode f' = 436%Z) /\
    (Some (XNum 1600000000%Z) <> Some (XNum 1700000100%Z) ->
       (true = true -> fs_xattr f' = Some (XNum (fs_mtime f'))) /\
       (true = true -> true = true -> Z.testbit (fs_mode f') 4 = false) /\
       (true = true -> true = false -> fs_mode f' = 436%Z) /\
       (true = false -> fs_xattr f' = Some (XNum 1600000000%Z) /\ fs_mode f' = 436%Z)).
Proof.
  apply (verification_ts_after_finalize (mkFsEnv true true true 1700000100%Z)
           af_finalized ExcNone
           (mkFileState 1700000000%Z (Some (XNum 1600000000%Z)) 436%Z));
    try reflexivity.
  - left; reflexivity.
  - intros s; discriminate.
Defined.



Lemma should_withdraw_false_withdrawn (d : Dir) :
  d_errors d <> [] -> should_withdraw d = false -> flag_in WITHDRAWN (d_flags d) = true.
Proof.
  unfold should_withdraw. destruct (d_errors d); [congruence|]. cbn.
  destruct (flag_in WITHDRAWN (d_flags d)); auto.
Qed.





(** Small evaluations of the reconciliation. *)
Example audio_dir_init_gap :
  match audio_dir_init "Album"%string HAS_AUDIO
          [mkAudioEntry "03 c.flac" (album_track (Some 3) (Some 3) (Some "a"%string));
           mkAudioEntry "01 a.flac" (album_track (Some 1) (Some 3) (Some "a"%string))] with
  | Ok r => r_errors r = [EINCONSISTENT]
  | Raise _ => False
  end.
Proof. reflexivity. Qed.

Example audio_dir_init_duplicate :
  match audio_dir_init "Album"%string HAS_AUDIO
          [mkAudioEntry "02 b.mp3" (album_track (Some 2) (Some 2) (Some "a"%string));
           mkAudioEntry "01 a.flac" (album_track (Some 1) (Some 2) (Some "a"%string));
           mkAudioEntry "01 a.mp3" (album_track (Some 1) (Some 2) (Some "a"%string))] with
  | Ok r => r_errors r = [] /\ flag_in CHECK_DUPLICATES (r_flags r) = true /\ r_kind r = KAlbum
  | Raise _ => False
  end.
Proof. split; [|split]; reflexivity. Qed.

(** C6 (code_bug): in an album folder holding an MP3 without a TRCK
    frame, the sort key [int(None)] raises TypeError before the scan's
    [track_number is None] check can record INVALID_TAGS: construction of
    the directory raises. *)
Theorem audio_dir_init_crashes_on_missing_track_number :
  audio_dir_init "Album"%string HAS_AUDIO
    [mkAudioEntry "01 Intro.mp3" (album_track (Some 1) (Some 2) (Some "a"%string));
     mkAudioEntry "02 Song.mp3" (album_track None None (Some "a"%string))]
  = Raise TypeError.
Proof. reflexivity. Qed.

(** The scan itself does what the claim describes: on a list it reaches,
    a missing track number stops it with INVALID_TAGS. *)
Lemma scan_missing_track_number (a : ScanAcc) (e : AudioEntry) (rest : list AudioEntry) :
  track_number (ae_info e) = None -> scan a (e :: rest) = scan_fail a EINVTAGS.
Proof. intros H. cbn. unfold scan_step. now rewrite H. Qed.

Lemma flag_in_testbit (k : Z) (x : Z) :
  0 <= k -> flag_in (Z.shiftl 1 k) x = Z.testbit x k.
Proof.
  intros Hk. unfold flag_in. rewrite Z.shiftl_1_l.
  destruct (Z.testbit x k) eqn:Hx.
  - apply Z.eqb_eq, Z.bits_inj'. intros i Hi.
    rewrite Z.land_spec, Z.pow2_bits_eqb by lia.
    destruct (Z.eqb_spec k i) as [<-|]; [now rewrite Hx|now rewrite andb_false_r].
  - apply Z.eqb_neq. intros Heq.
    assert (Hb : Z.testbit (Z.land x (2 ^ k)) k = Z.testbit (2 ^ k) k) by now rewrite Heq.
    rewrite Z.land_spec, Hx, Z.pow2_bits_true in Hb by lia. discriminate.
Qed.

Lemma testbit_lor_other (x f i : Z) :
  Z.testbit f i = false -> Z.testbit (Z.lor x f) i = Z.testbit x i.
Proof. intros H. rewrite Z.lor_spec, H. apply orb_false_r. Qed.

Lemma testbit_lor_same (x f i : Z) :
  Z.testbit f i = true -> Z.testbit (Z.lor x f) i = true.
Proof. intros H. rewrite Z.lor_spec, H. apply orb_true_r. Qed.

Lemma testbit_lor_keep (x f i : Z) :
  Z.testbit x i = true -> Z.testbit (Z.lor x f) i = true.
Proof. intros H. rewrite Z.lor_spec, H. reflexivity. Qed.

Ltac flags_simpl :=
  unfold CHECK_DUPLICATES, PARTIAL_RELEASE;
  rewrite ?flag_in_testbit by lia;
  repeat (rewrite testbit_lor_other by reflexivity);
  repeat (first [apply testbit_lor_same; reflexivity | apply testbit_lor_keep]);
  try reflexivity.

(** C7 (counterexample): an error-free album folder whose tracks carry
    neither album_id nor num_tracks records only MISSING_TAGS, not
    INVALID_TAGS. *)
Lemma post_scan_missing_album_id_hides_num_tracks :
  match audio_dir_init "Album"%string HAS_AUDIO
          [mkAudioEntry "01 a.flac" (album_track (Some 1) None None);
           mkAudioEntry "02 b.flac" (album_track (Some 2) None None)] with
  | Ok r => r_errors r = [EMISSINGTAGS] /\ ~ In EINVTAGS (r_errors r)
  | Raise _ => False
  end.
Proof. cbn. split; [reflexivity|]. intros [H|[]]. discriminate H. Qed.

(** C7 (amended): for an error-free scan of a non-standalone audio
    folder, the post-scan checks run in order and stop at the first error:
    a missing album_id records MISSING_TAGS; otherwise a missing or zero
    num_tracks records INVALID_TAGS; otherwise num_tracks below the file
    count sets CHECK_DUPLICATES, num_tracks = file count + 1 records
    INCONSISTENT, and num_tracks above file count + 1 records no error,
    sets PARTIAL_RELEASE and leaves CHECK_DUPLICATES as the scan left it. *)
Theorem post_scan_checks :
  forall (a : ScanAcc) (n : nat),
    s_errors a = [] ->
    (s_album_id a = None -> post_scan_errors a n = [EMISSINGTAGS]) /\
    (s_album_id a <> None -> (s_num_tracks a = None \/ s_num_tracks a = Some 0) ->
       post_scan_errors a n = [EINVTAGS]) /\
    (forall nt : Z, s_album_id a <> None -> s_num_tracks a = Some nt -> nt <> 0 ->
       (nt < Z.of_nat n ->
          post_scan_errors a n = [] /\ flag_in CHECK_DUPLICATES (post_scan_flags a n) = true) /\
       (nt = Z.of_nat n + 1 -> post_scan_errors a n = [EINCONSISTENT]) /\
       (Z.of_nat n + 1 < nt ->
          post_scan_errors a n = [] /\
          flag_in PARTIAL_RELEASE (post_scan_flags a n) = true /\
          flag_in CHECK_DUPLICATES (post_scan_flags a n) =
            flag_in CHECK_DUPLICATES (s_flags a))).
Proof.
  intros a n He. unfold post_scan_errors, post_scan_flags, post_scan. rewrite He.
  split; [intros ->; reflexivity|]. split.
  - intros Ha Hnt. destruct (s_album_id a); [|congruence].
    destruct Hnt as [-> | ->]; reflexivity.
  - intros nt Ha Hnt Hnz. destruct (s_album_id a); [|congruence]. rewrite Hnt.
    rewrite (proj2 (Z.eqb_neq nt 0) Hnz).
    split; [|split]; intros Hc.
    + destruct (Z.ltb_spec nt (Z.of_nat n)); [|lia].
      destruct (s_num_discs a) as [nd|];
        [destruct (negb (nd =? 0) && (1 <? nd))|];
        destruct (s_album_gain a), (s_album_peak a); cbn;
        (split; [reflexivity|flags_simpl]).
    + destruct (Z.ltb_spec nt (Z.of_nat n)); [lia|].
      destruct (Z.ltb_spec (Z.of_nat n) nt); [|lia].
      rewrite (proj2 (Z.eqb_eq _ _) Hc). reflexivity.
    + destruct (Z.ltb_spec nt (Z.of_nat n)); [lia|].
      destruct (Z.ltb_spec (Z.of_nat n) nt); [|lia].
      destruct (Z.eqb_spec nt (Z.of_nat n + 1)); [lia|].
      destruct (s_num_discs a) as [nd|];
        [destruct (negb (nd =? 0) && (1 <? nd))|];
        destruct (s_album_gain a), (s_album_peak a); cbn;
        (split; [reflexivity|split; flags_simpl]).
Qed.

(** Witness of the C7 theorem on a scan accumulator of an album folder
    with 10 files announcing 12 tracks. *)
Lemma post_scan_checks_witness :
  let a := mkScanAcc (Some 12) (Some 1) (Some 1) (Some "a"%string) (Some "g"%string)
             None None (Some 1) (Some 10) HAS_AUDIO [] in
  s_errors a = [] /\
  (Z.of_nat 10 + 1 < 12 ->
     post_scan_errors a 10 = [] /\ flag_in PARTIAL_RELEASE (post_scan_flags a 10) = true /\
     flag_in CHECK_DUPLICATES (post_scan_flags a 10) = flag_in CHECK_DUPLICATES (s_flags a)).
Proof.
  intros a. split; [reflexivity|].
  destruct (post_scan_checks a 10 eq_refl) as [_ [_ H]].
  destruct (H 12 ltac:(discriminate) eq_refl ltac:(lia)) as [_ [_ H3]].
  exact H3.
Defined.

Lemma other_paths_nonempty (rows : list (string * string)) (id path : string) :
  Forall (fun r => snd r <> ""%string) rows ->
  Forall (fun p => p <> ""%string) (other_paths rows id path).
Proof.
  intros H. unfold other_paths. apply List.Forall_forall. intros p Hin.
  apply in_map_iff in Hin as [r [<- Hr]]. apply filter_In in Hr as [Hr _].
  rewrite List.Forall_forall in H. exact (H r Hr).
Qed.

Lemma dup_warnings_all (msg : string) (l : list string) :
  Forall (fun p => p <> ""%string) l -> dup_warnings msg l = map (fun _ => (LWarning, msg)) l.
Proof.
  intros H. unfold dup_warnings. f_equal.
  induction H as [|p l Hp _ IH]; [reflexivity|]. cbn.
  destruct (String.eqb_spec p ""%string); [contradiction|]. cbn. now rewrite IH.
Qed.

Lemma add_album_guards (fail : nat -> bool) (db : DB) (path rg aid : string) :
  path <> ""%string -> rg <> ""%string -> aid <> ""%string ->
  add_album fail db path (Some rg) (Some aid) =
  let '(db', log, r) := add_album_try fail db path rg aid in
  match r with
  | Raise SqliteError => (db', log, add_album_handler)
  | _ => (db', log, r)
  end.
Proof.
  intros Hp Hr Ha. unfold add_album.
  rewrite (proj2 (String.eqb_neq _ _) Hp), (proj2 (String.eqb_neq _ _) Hr),
    (proj2 (String.eqb_neq _ _) Ha). reflexivity.
Qed.

(** C8 (counterexample): with an empty release-group id (an empty tag),
    no row exists and no duplicate fires, yet nothing is inserted. *)
Lemma add_album_empty_id_inserts_nothing :
  match add_album (fun _ => false) (mkDB [] []) "/music/Artist/Album"%string
          (Some ""%string) (Some "b7c1"%string) with
  | (db', _, r) => db' = mkDB [] [] /\ r = Ok tt
  end.
Proof. split; reflexivity. Qed.

Lemma dup_warnings_nil_iff (m1 m2 : string) (l1 l2 : list string) :
  Forall (fun p => p <> ""%string) l1 -> Forall (fun p => p <> ""%string) l2 ->
  (dup_warnings m1 l1 ++ dup_warnings m2 l2 = [] <-> l1 = [] /\ l2 = []).
Proof.
  intros H1 H2. rewrite (dup_warnings_all _ _ H1), (dup_warnings_all _ _ H2).
  destruct l1, l2; cbn; split; intros H; try discriminate; try (destruct H; discriminate); auto.
Qed.

Lemma has_warning_dup (m1 m2 : string) (l1 l2 : list string) (tl : Log) :
  Forall (fun p => p <> ""%string) l1 -> Forall (fun p => p <> ""%string) l2 ->
  (l1 <> [] \/ l2 <> []) ->
  has_warning (dup_warnings m1 l1 ++ dup_warnings m2 l2 ++ tl) = true.
Proof.
  intros H1 H2 Hne. rewrite (dup_warnings_all _ _ H1), (dup_warnings_all _ _ H2).
  destruct l1; [destruct l2; [destruct Hne; congruence|]|]; reflexivity.
Qed.

(** C8 (amended): [add_album] logs an error and inserts nothing when the
    path is empty or either id is missing or empty.  Otherwise, for a
    non-empty path and non-empty ids, on an index whose stored paths are
    non-empty (all of them came through this guard),
    - every call leaves the index either unchanged or with exactly the
      missing rows added (the inserts are one transaction), and a call
      that raises leaves it unchanged;
    - when no SQL statement fails: it is a no-op when both exact rows
      exist; otherwise, when either id is stored under another path, it
      warns and inserts nothing; otherwise it inserts exactly the missing
      rows. *)
Theorem add_album_spec (fail : nat -> bool) (db : DB) (path : string)
    (rgo aido : option string) :
  paths_nonempty db ->
  ((path = ""%string \/ rgo = None \/ rgo = Some ""%string \/
    aido = None \/ aido = Some ""%string) ->
   exists msg, add_album fail db path rgo aido = (db, [(LError, msg)], Ok tt)) /\
  (forall rg aid : string,
   rgo = Some rg -> aido = Some aid ->
   path <> ""%string -> rg <> ""%string -> aid <> ""%string ->
  let '(db', log, r) := add_album fail db path rgo aido in
  (db' = db \/ db' = with_missing_rows db path rg aid) /\
  (r <> Ok tt -> db' = db) /\
  ((forall n, fail n = false) ->
   r = Ok tt /\
   (row_exists (release_groups db) rg path = true ->
    row_exists (albums db) aid path = true ->
    db' = db /\ has_warning log = false) /\
   (row_exists (release_groups db) rg path && row_exists (albums db) aid path = false ->
    (other_paths (release_groups db) rg path <> [] \/ other_paths (albums db) aid path <> []) ->
    db' = db /\ has_warning log = true) /\
   (row_exists (release_groups db) rg path && row_exists (albums db) aid path = false ->
    other_paths (release_groups db) rg path = [] -> other_paths (albums db) aid path = [] ->
    db' = with_missing_rows db path rg aid /\ has_warning log = false))).
Proof.
  intros [Hrg Hal]. split.
  { intros Hg. unfold add_album.
    destruct (String.eqb_spec path ""%string) as [->|Hp]; [eexists; reflexivity|].
    destruct rgo as [rg|], aido as [aid|]; try (eexists; reflexivity).
    destruct Hg as [Hg|[Hg|[Hg|[Hg|Hg]]]]; try congruence; injection Hg as ->;
      rewrite String.eqb_refl, ?orb_true_r; eexists; reflexivity. }
  intros rg aid -> -> Hp Hr Ha.
  pose proof (other_paths_nonempty _ rg path Hrg) as Orp.
  pose proof (other_paths_nonempty _ aid path Hal) as Oap.
  rewrite (add_album_guards fail db path rg aid Hp Hr Ha).
  unfold add_album_try, with_missing_rows, sql, sql_insert.
  destruct (row_exists (release_groups db) rg path) eqn:Erg,
           (row_exists (albums db) aid path) eqn:Eal;
  repeat (match goal with |- context [fail ?n] => destruct (fail n) eqn:? end);
  cbn [mbind outcome_bind andb negb].
  all: try (destruct (dup_warnings _ _ ++ dup_warnings _ _) eqn:W).
  all: cbn -[has_warning].
  all: repeat split; auto; intros;
    try discriminate; try congruence; try reflexivity;
    try (right; reflexivity); try (left; destruct db; reflexivity);
    try match goal with
        | Hf : forall n, ?f n = false, H : ?f ?k = true |- _ => rewrite Hf in H; discriminate
        end.
  all: match goal with
       | W : _ = _ :: _, H1 : other_paths _ _ _ = [], H2 : other_paths _ _ _ = [] |- _ =>
           rewrite H1, H2 in W; discriminate
       | W : _ = [], Hd : other_paths _ _ _ <> [] \/ other_paths _ _ _ <> [] |- _ =>
           apply (dup_warnings_nil_iff _ _ _ _ Orp Oap) in W as [W1 W2];
           destruct Hd; contradiction
       | W : _ = ?p :: ?l |- has_warning (?p :: ?l ++ ?t) = true =>
           change (p :: l ++ t) with ((p :: l) ++ t); rewrite <- W, <- app_assoc;
           apply has_warning_dup; auto
       end.
Qed.

Lemma add_album_spec_witness :
  paths_nonempty (mkDB [] []) /\
  (exists msg, add_album (fun _ => false) (mkDB [] []) "/music/A"%string
                 (Some ""%string) (Some "a1"%string)
               = (mkDB [] [], [(LError, msg)], Ok tt)) /\
  (let '(db', _, _) := add_album (fun _ => false) (mkDB [] []) "/music/A"%string
                         (Some "r1"%string) (Some "a1"%string) in
   db' = with_missing_rows (mkDB [] []) "/music/A" "r1" "a1")%string.
Proof.
  assert (Hne : paths_nonempty (mkDB [] [])) by (split; constructor).
  destruct (add_album_spec (fun _ => false) (mkDB [] []) "/music/A"%string
              (Some "r1"%string) (Some "a1"%string) Hne) as [_ H2].
  destruct (add_album_spec (fun _ => false) (mkDB [] []) "/music/A"%string
              (Some ""%string) (Some "a1"%string) Hne) as [H1 _].
  split; [exact Hne|]. split.
  - apply H1. right. right. left. reflexivity.
  - specialize (H2 "r1"%string "a1"%string eq_refl eq_refl ltac:(discriminate)
                  ltac:(discriminate) ltac:(discriminate)).
    destruct (add_album _ _ _ _ _) as [[db' log] r].
    destruct H2 as [_ [_ H3]].
    destruct (H3 (fun _ => eq_refl)) as [_ [_ [_ H4]]].
    exact (proj1 (H4 eq_refl eq_refl eq_refl)).
Defined.

(** C10: whenever a statement of [add_album]'s [try:] body raises
    [sqlite3.Error], the handler's [str(e)] loads a name that is neither a
    local of [add_album], nor a global of [lgindexer.py], nor a builtin,
    so the caller gets [NameError] instead of
    [LgException(LgErr.EDBERR, ...)]. *)
Theorem add_album_db_error_raises_NameError (fail : nat -> bool) (db : DB)
    (path rg aid : string) :
  path <> ""%string -> rg <> ""%string -> aid <> ""%string ->
  snd (add_album_try fail db path rg aid) = Raise SqliteError ->
  snd (add_album fail db path (Some rg) (Some aid)) = Raise NameError.
Proof.
  intros Hp Hr Ha Herr.
  rewrite (add_album_guards fail db path rg aid Hp Hr Ha).
  destruct (add_album_try fail db path rg aid) as [[db' log] r].
  cbn in Herr. subst r. reflexivity.
Qed.

Lemma add_album_db_error_raises_NameError_witness :
  (snd (add_album_try (fun _ => true) (mkDB [] []) "/music/A" "r1" "a1") = Raise SqliteError /\
  snd (add_album (fun _ => true) (mkDB [] []) "/music/A" (Some "r1") (Some "a1")) = Raise NameError)%string.
Proof.
  split; [reflexivity|].
  apply add_album_db_error_raises_NameError; [discriminate..|reflexivity].
Defined.

(** ** Injectivity of CPython's tuple hash in one lane *)

Lemma mulmod_inj (P Q x y : Z) :
  (P * Q) mod 2 ^ 64 = 1 -> (x * P) mod 2 ^ 64 = (y * P) mod 2 ^ 64 -> x mod 2 ^ 64 = y mod 2 ^ 64.
Proof.
  intros HPQ H.
  assert (Hx : x mod 2 ^ 64 = (x * P mod 2 ^ 64 * Q) mod 2 ^ 64).
  { rewrite Z.mul_mod_idemp_l by lia. rewrite <- Z.mul_assoc, <- Z.mul_mod_idemp_r by lia.
    now rewrite HPQ, Z.mul_1_r. }
  assert (Hy : y mod 2 ^ 64 = (y * P mod 2 ^ 64 * Q) mod 2 ^ 64).
  { rewrite Z.mul_mod_idemp_l by lia. rewrite <- Z.mul_assoc, <- Z.mul_mod_idemp_r by lia.
    now rewrite HPQ, Z.mul_1_r. }
  now rewrite Hx, Hy, H.
Qed.

Lemma u64_range (z : Z) : 0 <= u64 z < 2 ^ 64.
Proof. unfold u64. apply Z.mod_pos_bound. lia. Qed.

Lemma xxrotate_range (x : Z) : 0 <= x < 2 ^ 64 -> 0 <= xxrotate x < 2 ^ 64.
Proof. unfold xxrotate. intros H. pose proof (Z.mod_pos_bound x (2 ^ 33)). Z.div_mod_to_equations. lia. Qed.

Lemma xxrotate_inj (x y : Z) :
  0 <= x < 2 ^ 64 -> 0 <= y < 2 ^ 64 -> xxrotate x = xxrotate y -> x = y.
Proof. unfold xxrotate. intros Hx Hy H. Z.div_mod_to_equations. lia. Qed.

Lemma u64_add_inj_r (a x y : Z) : u64 (a + x) = u64 (a + y) -> x mod 2 ^ 64 = y mod 2 ^ 64.
Proof. unfold u64. intros H. Z.div_mod_to_equations. lia. Qed.

(** The part of [tuple_step] after the lane is added to the accumulator. *)
Lemma tuple_step_inj_mix (a1 a2 : Z) :
  u64 (xxrotate (u64 a1) * XXPRIME_1) = u64 (xxrotate (u64 a2) * XXPRIME_1) ->
  u64 a1 = u64 a2.
Proof.
  intros H.
  apply (mulmod_inj XXPRIME_1 614540362697595703) in H; [|reflexivity].
  pose proof (xxrotate_range _ (u64_range a1)). pose proof (xxrotate_range _ (u64_range a2)).
  rewrite !Z.mod_small in H by lia.
  exact (xxrotate_inj _ _ (u64_range a1) (u64_range a2) H).
Qed.

Lemma tuple_step_inj_acc (acc1 acc2 lane : Z) :
  0 <= acc1 < 2 ^ 64 -> 0 <= acc2 < 2 ^ 64 ->
  tuple_step acc1 lane = tuple_step acc2 lane -> acc1 = acc2.
Proof.
  unfold tuple_step. intros H1 H2 H. apply tuple_step_inj_mix in H.
  unfold u64 in H. Z.div_mod_to_equations. lia.
Qed.

Lemma tuple_step_inj_lane (acc l1 l2 : Z) :
  - 2 ^ 63 <= l1 < 2 ^ 63 -> - 2 ^ 63 <= l2 < 2 ^ 63 ->
  tuple_step acc l1 = tuple_step acc l2 -> l1 = l2.
Proof.
  unfold tuple_step. intros H1 H2 H. apply tuple_step_inj_mix, u64_add_inj_r in H.
  apply (mulmod_inj XXPRIME_2 839798700976720815) in H; [|reflexivity].
  unfold u64 in H. rewrite !Z.mod_mod in H by lia.
  Z.div_mod_to_equations. lia.
Qed.

Lemma fold_tuple_step_range (lanes : list Z) (acc : Z) :
  0 <= acc < 2 ^ 64 -> 0 <= fold_left tuple_step lanes acc < 2 ^ 64.
Proof.
  revert acc. induction lanes as [|l lanes IH]; intros acc H; cbn; [exact H|].
  apply IH. apply u64_range.
Qed.

Lemma fold_tuple_step_inj (lanes : list Z) (a1 a2 : Z) :
  0 <= a1 < 2 ^ 64 -> 0 <= a2 < 2 ^ 64 ->
  fold_left tuple_step lanes a1 = fold_left tuple_step lanes a2 -> a1 = a2.
Proof.
  revert a1 a2. induction lanes as [|l lanes IH]; intros a1 a2 H1 H2 H; cbn in H; [exact H|].
  apply (tuple_step_inj_acc _ _ l H1 H2).
  apply IH; [apply u64_range..|exact H].
Qed.

Lemma py_tuple_hash_not_minus_one (lanes : list Z) : py_tuple_hash lanes <> -1.
Proof.
  unfold py_tuple_hash, to_signed64.
  set (a := u64 _). pose proof (u64_range (fold_left tuple_step lanes XXPRIME_5
    + Z.lxor (Z.of_nat (length lanes)) (Z.lxor XXPRIME_5 3527539))) as Ha. fold a in Ha.
  destruct (Z.eqb_spec a (2 ^ 64 - 1)); [discriminate|].
  destruct (Z.ltb_spec a (2 ^ 63)); lia.
Qed.

(** Two tuples that differ only in their first lane have different hashes,
    unless the hash is the value [tuplehash] substitutes for -1. *)
Lemma py_tuple_hash_inj_head (h1 h2 : Z) (rest : list Z) :
  - 2 ^ 63 <= h1 < 2 ^ 63 -> - 2 ^ 63 <= h2 < 2 ^ 63 ->
  py_tuple_hash (h1 :: rest) = py_tuple_hash (h2 :: rest) ->
  h1 = h2 \/ py_tuple_hash (h1 :: rest) = 1546275796.
Proof.
  intros R1 R2 H.
  assert (Hacc : forall a1 a2, 0 <= a1 < 2 ^ 64 -> 0 <= a2 < 2 ^ 64 ->
    fold_left tuple_step rest (tuple_step XXPRIME_5 a1) = fold_left tuple_step rest (tuple_step XXPRIME_5 a2) ->
    tuple_step XXPRIME_5 a1 = tuple_step XXPRIME_5 a2).
  { intros a1 a2 _ _ E. apply fold_tuple_step_inj in E; [exact E|apply u64_range..]. }
  unfold py_tuple_hash in *. cbn [fold_left length] in *.
  set (F1 := fold_left tuple_step rest (tuple_step XXPRIME_5 h1)) in *.
  set (F2 := fold_left tuple_step rest (tuple_step XXPRIME_5 h2)) in *.
  assert (E : F1 = F2 -> h1 = h2).
  { intros E. apply fold_tuple_step_inj in E; [|apply u64_range..].
    exact (tuple_step_inj_lane _ _ _ R1 R2 E). }
  pose proof (fold_tuple_step_range rest (tuple_step XXPRIME_5 h1) (u64_range _)) as B1.
  pose proof (fold_tuple_step_range rest (tuple_step XXPRIME_5 h2) (u64_range _)) as B2.
  fold F1 in B1. fold F2 in B2.
  set (c := Z.lxor _ _) in *.
  destruct (Z.eqb_spec (u64 (F1 + c)) (2 ^ 64 - 1)) as [S1|S1];
  destruct (Z.eqb_spec (u64 (F2 + c)) (2 ^ 64 - 1)) as [S2|S2].
  - left. apply E. rewrite <- S2 in S1. unfold u64 in S1. Z.div_mod_to_equations. lia.
  - right. reflexivity.
  - right. rewrite H. reflexivity.
  - left. apply E. unfold to_signed64 in H.
    pose proof (u64_range (F1 + c)). pose proof (u64_range (F2 + c)).
    assert (U : u64 (F1 + c) = u64 (F2 + c)).
    { destruct (Z.ltb_spec (u64 (F1 + c)) (2 ^ 63)), (Z.ltb_spec (u64 (F2 + c)) (2 ^ 63)); lia. }
    unfold u64 in U. Z.div_mod_to_equations. lia.
Qed.

(** C9 (counterexample): [__eq__] compares hashes, so two album tracks
    whose identity tuples differ (track number 1 and 2^61) are equal, for
    any string hash. *)
Lemma trackinfo_eq_not_decided_by_identity_tuple :
  ~ (forall (str_hash : string -> Z) (none_hash : Z) (t1 t2 : TrackInfo),
       is_standalone t1 = false -> is_standalone t2 = false ->
       trackinfo_eq str_hash none_hash t1 t2 = true ->
       identity_tuple t1 = identity_tuple t2).
Proof.
  intros H.
  assert (Heq : forall str_hash none_hash,
    trackinfo_eq str_hash none_hash (album_track (Some 1) (Some 12) (Some "b7c1"%string))
      ti_track_2_61 = true).
  { intros sh nh. unfold trackinfo_eq, frozen_hash.
    replace (map (py_hash sh nh) (hash_tuple ti_track_2_61))
      with (map (py_hash sh nh) (hash_tuple (album_track (Some 1) (Some 12) (Some "b7c1"%string))))
      by reflexivity.
    apply Z.eqb_refl. }
  pose proof (H (fun _ => 0) 0 (album_track (Some 1) (Some 12) (Some "b7c1"%string))
    ti_track_2_61 eq_refl eq_refl (Heq _ _)) as E.
  discriminate E.
Qed.

Lemma builtin_hash_frozen (str_hash : string -> Z) (none_hash : Z) (t : TrackInfo) :
  builtin_hash (frozen_hash str_hash none_hash t) = frozen_hash str_hash none_hash t.
Proof.
  unfold builtin_hash. pose proof (py_tuple_hash_not_minus_one
    (map (py_hash str_hash none_hash) (hash_tuple t))).
  unfold frozen_hash. destruct (Z.eqb_spec (py_tuple_hash (map (py_hash str_hash none_hash) (hash_tuple t))) (-1)); congruence.
Qed.

(** C9 (amended): two TrackInfos are equal exactly when the hashes of
    their hash tuples are.  So album tracks with equal identity tuples are
    equal, and so are any two TrackInfos whose tuples have equal element
    hashes.  Two standalone tracks with the same sample rate, bit rate,
    bit depth and duration are equal when the string hashes of their
    unique ids collide; when they are equal, those string hashes collide
    or the tuple hash is 1546275796, the value [tuplehash] uses in place
    of -1. *)
Theorem trackinfo_eq_hash_spec (str_hash : string -> Z) (none_hash : Z) (t1 t2 : TrackInfo) :
  (forall s, - 2 ^ 63 <= str_hash s < 2 ^ 63) ->
  (is_standalone t1 = false -> is_standalone t2 = false ->
   identity_tuple t1 = identity_tuple t2 -> trackinfo_eq str_hash none_hash t1 t2 = true) /\
  (map (py_hash str_hash none_hash) (hash_tuple t1) =
     map (py_hash str_hash none_hash) (hash_tuple t2) ->
   trackinfo_eq str_hash none_hash t1 t2 = true) /\
  (is_standalone t1 = true -> is_standalone t2 = true ->
   sample_rate t1 = sample_rate t2 -> bit_rate t1 = bit_rate t2 ->
   bit_depth t1 = bit_depth t2 -> duration_secs t1 = duration_secs t2 ->
   (str_hash (unique_id t1) = str_hash (unique_id t2) ->
    trackinfo_eq str_hash none_hash t1 t2 = true) /\
   (trackinfo_eq str_hash none_hash t1 t2 = true ->
    str_hash (unique_id t1) = str_hash (unique_id t2) \/
    frozen_hash str_hash none_hash t1 = 1546275796)).
Proof.
  intros Hrange.
  assert (Hmap : map (py_hash str_hash none_hash) (hash_tuple t1) =
                 map (py_hash str_hash none_hash) (hash_tuple t2) ->
                 trackinfo_eq str_hash none_hash t1 t2 = true).
  { intros E. unfold trackinfo_eq, frozen_hash. rewrite E. apply Z.eqb_refl. }
  split; [|split; [exact Hmap|]].
  - intros S1 S2 E. apply Hmap. unfold hash_tuple. now rewrite S1, S2, E.
  - intros S1 S2 Esr Ebr Ebd Edur.
    assert (Hl : forall t, is_standalone t = true ->
      map (py_hash str_hash none_hash) (hash_tuple t) =
      str_hash (unique_id t) ::
        map (py_hash str_hash none_hash)
          [opt_int (sample_rate t); opt_int (bit_rate t); opt_int (bit_depth t);
           opt_int (duration_secs t)]).
    { intros t St. unfold hash_tuple. now rewrite St. }
    split.
    + intros Eu. apply Hmap. rewrite (Hl t1 S1), (Hl t2 S2), Eu, Esr, Ebr, Ebd, Edur.
      reflexivity.
    + intros Heq. unfold trackinfo_eq in Heq. rewrite !builtin_hash_frozen in Heq.
      apply Z.eqb_eq in Heq. unfold frozen_hash in *.
      rewrite (Hl t1 S1), (Hl t2 S2), Esr, Ebr, Ebd, Edur in *.
      exact (py_tuple_hash_inj_head _ _ _ (Hrange _) (Hrange _) Heq).
Qed.

Lemma trackinfo_eq_hash_spec_witness :
  (forall s, - 2 ^ 63 <= len_hash s < 2 ^ 63) /\
  let t1 := standalone_track "3f2a"%string in
  let t2 := standalone_track "9c4e"%string in
  (is_standalone t1 = false -> is_standalone t2 = false ->
   identity_tuple t1 = identity_tuple t2 -> trackinfo_eq len_hash 0 t1 t2 = true) /\
  (map (py_hash len_hash 0) (hash_tuple t1) = map (py_hash len_hash 0) (hash_tuple t2) ->
   trackinfo_eq len_hash 0 t1 t2 = true) /\
  (is_standalone t1 = true -> is_standalone t2 = true ->
   sample_rate t1 = sample_rate t2 -> bit_rate t1 = bit_rate t2 ->
   bit_depth t1 = bit_depth t2 -> duration_secs t1 = duration_secs t2 ->
   (len_hash (unique_id t1) = len_hash (unique_id t2) -> trackinfo_eq len_hash 0 t1 t2 = true) /\
   (trackinfo_eq len_hash 0 t1 t2 = true ->
    len_hash (unique_id t1) = len_hash (unique_id t2) \/ frozen_hash len_hash 0 t1 = 1546275796)).
Proof.
  assert (R : forall s, - 2 ^ 63 <= len_hash s < 2 ^ 63).
  { intros s. unfold len_hash. pose proof (Z.mod_pos_bound (Z.of_nat (String.length s)) (2 ^ 63)). lia. }
  split; [exact R|].
  exact (trackinfo_eq_hash_spec len_hash 0 (standalone_track "3f2a"%string)
           (standalone_track "9c4e"%string) R).
Defined.

(* ------------------------------------------------------------------ *)
(** ** Further properties of the code *)

(** [LgAudioFile.__exit__] then [_check_verification_ts_from_xattrs]: a
    file finalised with verification OK, tags changed and saved, no
    deletion mark, no dry run, a working [setxattr] and no malformed
    timestamp attribute is found verified on the next run: the lookup
    returns the mtime after the save. *)
Theorem finalized_file_passes_next_check (env : FsEnv) (af : AudioFileExit)
    (exc : exit_exc) (f : FileState) :
  ax_verification_state af = EOK -> exit_exc_ok exc = true ->
  ax_should_delete af = false -> ax_dryrun af = false -> ax_tags_updated af = true ->
  save_ok env = true -> setxattr_ok env = true ->
  (forall s, fs_xattr f <> Some (XRaw s)) ->
  exists f', audio_file_exit env af exc f = Ok (Some f') /\
    _check_verification_ts_from_xattrs f' = Some (save_mtime env).
Proof.
  intros Hvs Hexc Hdel Hdry Htu Hsave Hset Hraw.
  destruct af as [vs del tu dry rm]; cbn in Hvs, Hdel, Hdry, Htu; subst.
  unfold audio_file_exit; cbn [ax_verification_state ax_should_delete ax_dryrun
    ax_tags_updated LgErr_beq andb negb].
  replace (match exc with ExcNone => true | ExcLg e => LgErr_beq e EOK
           | ExcOther => false end) with true by (symmetry; exact Hexc).
  rewrite Hsave; cbn.
  unfold _update_verification_ts_on_xattrs, read_verification_ts; cbn.
  destruct (fs_xattr f) as [[z|s]|] eqn:Hx.
  - cbn. destruct (Z.eqb_spec (save_mtime env) z) as [<-|Hne]; cbn.
    + eexists; split; [reflexivity|]. unfold _check_verification_ts_from_xattrs; cbn.
      rewrite ?Hx, Z.eqb_refl. reflexivity.
    + rewrite Hset. destruct (chmod_ok env); (eexists; split; [reflexivity|]);
        unfold _check_verification_ts_from_xattrs; cbn; rewrite Z.eqb_refl; reflexivity.
  - exfalso; exact (Hraw s eq_refl).
  - cbn. rewrite Hset. destruct (chmod_ok env); (eexists; split; [reflexivity|]);
      unfold _check_verification_ts_from_xattrs; cbn; rewrite Z.eqb_refl; reflexivity.
Qed.

(** A timestamp attribute whose bytes are not an integer makes the lookup
    report the file unverified, and makes a finalising [__exit__] raise
    ValueError ([int()] in [_update_verification_ts_on_xattrs] is outside
    its [try]). *)
Theorem malformed_verification_ts (env : FsEnv) (af : AudioFileExit) (exc : exit_exc)
    (f : FileState) (s : string) :
  fs_xattr f = Some (XRaw s) ->
  _check_verification_ts_from_xattrs f = None /\
  (ax_verification_state af = EOK -> exit_exc_ok exc = true ->
   ax_should_delete af = false -> ax_dryrun af = false -> ax_tags_updated af = true ->
   save_ok env = true ->
   audio_file_exit env af exc f = Raise ValueError).
Proof.
  intros Hx. split; [unfold _check_verification_ts_from_xattrs; now rewrite Hx|].
  intros Hvs Hexc Hdel Hdry Htu Hsave.
  destruct af as [vs del tu dry rm]; cbn in Hvs, Hdel, Hdry, Htu; subst.
  unfold audio_file_exit; cbn [ax_verification_state ax_should_delete ax_dryrun
    ax_tags_updated LgErr_beq andb negb].
  replace (match exc with ExcNone => true | ExcLg e => LgErr_beq e EOK
           | ExcOther => false end) with true by (symmetry; exact Hexc).
  rewrite Hsave; cbn.
  unfold _update_verification_ts_on_xattrs, read_verification_ts; cbn. rewrite Hx. reflexivity.
Qed.

(** [LgAudioFile.__exit__] does not rewrite the file when verification
    failed, the exception it gets is not [None] or [LgException(EOK)], in
    a dry run, when no tag changed, or when saving the tags failed: the
    file is kept as it is, unless it is marked for deletion, in which case
    [_delete] removes it (not in a dry run, nor when [os.remove] fails). *)
Theorem exit_leaves_unfinalized_file (env : FsEnv) (af : AudioFileExit) (exc : exit_exc)
    (f : FileState) :
  (ax_verification_state af <> EOK \/ exit_exc_ok exc = false \/ ax_dryrun af = true \/
   ax_tags_updated af = false \/ save_ok env = false) ->
  audio_file_exit env af exc f = Ok (if ax_should_delete af then _delete af f else Some f).
Proof.
  intros H. destruct af as [vs del tu dry rm]; cbn in *.
  unfold audio_file_exit; cbn [ax_verification_state ax_should_delete ax_dryrun ax_tags_updated].
  fold (exit_exc_ok exc).
  destruct (LgErr_beq vs EOK) eqn:Evs.
  - assert (vs = EOK) by (destruct vs; try discriminate; reflexivity). subst vs.
    destruct (exit_exc_ok exc), del, dry, tu, (save_ok env); cbn; try reflexivity;
      destruct H as [H|[H|[H|[H|H]]]]; try congruence.
  - cbn. destruct del; reflexivity.
Qed.

Lemma pick_withdraw_err_nonempty (errors : list LgErr) :
  errors <> [] -> LgErr_beq (_pick_withdraw_err errors) EOK = false.
Proof.
  intros H. unfold _pick_withdraw_err. destruct errors as [|e t]; [congruence|].
  cbn [length Nat.eqb].
  repeat match goal with |- context [if ?c then _ else _] => destruct c end; reflexivity.
Qed.

(** [LgDirectory.__exit__] on a directory with a non-empty error bag: every
    audio file's [__exit__] gets [LgException(worst error)], so no file is
    rewritten: each is kept as it is, or goes through [_delete] when
    marked, and [_cleanup_files] raises nothing. *)
Theorem failed_directory_files_untouched (errors : list LgErr) (audio_files : list FileSlot) :
  errors <> [] ->
  dir_exit_audio errors audio_files =
  (map (fun slot => match slot with
                    | Some (env, af, f) => Some (Ok (if ax_should_delete af then _delete af f else Some f))
                    | None => None
                    end) audio_files, Ok tt).
Proof.
  intros He. unfold dir_exit_audio, _cleanup_files.
  assert (Hx : forall env af f,
    audio_file_exit env af (ExcLg (_pick_withdraw_err errors)) f =
    Ok (if ax_should_delete af then _delete af f else Some f)).
  { intros env af f. unfold audio_file_exit. rewrite (pick_withdraw_err_nonempty _ He).
    rewrite andb_false_r. cbn. destruct (ax_should_delete af); reflexivity. }
  assert (Hm : map (fun slot : FileSlot => match slot with
                    | Some (env, af, f) => Some (audio_file_exit env af (ExcLg (_pick_withdraw_err errors)) f)
                    | None => None end) audio_files =
               map (fun slot : FileSlot => match slot with
                    | Some (env, af, f) => Some (Ok (if ax_should_delete af then _delete af f else Some f))
                    | None => None end) audio_files).
  { apply map_ext. intros [[[env af] f]|]; [now rewrite Hx|reflexivity]. }
  cbn zeta. rewrite Hm. f_equal. clear Hm Hx.
  induction audio_files as [|[[[env af] f]|] t IH]; cbn; [reflexivity| |exact IH].
  destruct (ax_should_delete af); exact IH.
Qed.

(** On an empty error bag [__exit__] passes [LgException(EOK)] to the files,
    which they treat exactly as no exception. *)
Theorem clean_directory_exits_files_normally (audio_files : list FileSlot) :
  dir_exit_audio [] audio_files =
  _cleanup_files None audio_files.
Proof.
  unfold dir_exit_audio, _cleanup_files. cbn [_pick_withdraw_err length Nat.eqb].
  replace (map _ audio_files) with
    (map (fun slot : FileSlot => match slot with
          | Some (env, af, f) => Some (audio_file_exit env af ExcNone f)
          | None => None end) audio_files); [reflexivity|].
  apply map_ext. intros [[[env af] f]|]; reflexivity.
Qed.

Lemma unpack_mimetype_two (s : string) :
  length (py_split_slash s) = 2%nat ->
  exists major minor, py_split_slash s = [major; minor] /\ unpack_mimetype s = Ok (major, minor).
Proof.
  intros H. unfold unpack_mimetype.
  destruct (py_split_slash s) as [|a [|b [|c l]]]; cbn in H; try discriminate.
  exists a, b. split; reflexivity.
Qed.

(** [_get_type]: a non-marker file named [*.mp3] (any case) that
    [mimetypes] calls [audio/mpeg] is classified AUDIO whatever well-formed
    MIME type libmagic reports. *)
Theorem get_type_mp3_tolerated (name mm : string) :
  is_marker_name name = false ->
  py_lower (py_splitext_ext name) = ".mp3"%string ->
  length (py_split_slash mm) = 2%nat ->
  _get_type name (Some "audio/mpeg"%string) (Some mm) = Ok (Some AUDIO).
Proof.
  intros Hm Hext Hmm. unfold _get_type. unfold is_marker_name in Hm. rewrite Hm, Hext.
  destruct (unpack_mimetype_two mm Hmm) as (a & b & _ & ->).
  cbn -[String.eqb].
  destruct (String.eqb "audio/mpeg" mm); [reflexivity|].
  destruct (String.eqb "audio" a); [reflexivity|].
  destruct (String.eqb mm "inode/x-empty"), (String.eqb mm "text/plain"),
    (String.eqb mm "application/octet-stream"); reflexivity.
Qed.

(** [_get_type]: with two well-formed MIME types, one of them [text/plain],
    the file is never rejected as inconsistent: it gets a format. *)
Theorem get_type_text_plain_accepted (name mt mm : string) :
  is_marker_name name = false ->
  length (py_split_slash mt) = 2%nat -> length (py_split_slash mm) = 2%nat ->
  (mt = "text/plain"%string \/ mm = "text/plain"%string) ->
  exists fmt, _get_type name (Some mt) (Some mm) = Ok (Some fmt).
Proof.
  intros Hm Hmt Hmm Ht. unfold _get_type. unfold is_marker_name in Hm. rewrite Hm.
  destruct (unpack_mimetype_two mm Hmm) as (a & b & Ha & ->).
  destruct (unpack_mimetype_two mt Hmt) as (c & d & Hc & ->).
  cbn -[String.eqb].
  destruct Ht as [->| ->].
  - cbn in Hc. injection Hc as <- <-.
    destruct (String.eqb "text/plain" mm), (String.eqb "text" a),
      (String.eqb mm "inode/x-empty"); cbn -[String.eqb]; eexists; reflexivity.
  - cbn in Ha. injection Ha as <- <-.
    destruct (String.eqb mt "text/plain"), (String.eqb c "text"), (String.eqb c "audio"),
      (String.eqb c "image"), (String.eqb mt "application/pdf");
      cbn -[String.eqb]; eexists; reflexivity.
Qed.

Lemma dir_scan_created (a : DirScan) (created : list (outcome (option LgFileObj))) :
  forallb worker_returns created = true ->
  exists a', dir_scan a (map (_process_file_entry true) created) = Ok a' /\
    ds_flags a' = Z.lor (ds_flags a) (flags_of created) /\
    ds_errors a' = ds_errors a ++ flat_map created_errors created /\
    ds_audio_files a' = ds_audio_files a ++ flat_map created_audio created.
Proof.
  revert a. induction created as [|c rest IH]; intros a Hw.
  - exists a. cbn. rewrite Z.lor_0_r, !app_nil_r. repeat split.
  - cbn in Hw. apply andb_true_iff in Hw as [Hc Hw].
    destruct c as [[[st| | | | ]|]|x]; [| | | | | |destruct x; try discriminate];
      cbn;
      repeat match goal with |- context [Z.eqb ?x ?y] =>
        let b := eval vm_compute in (Z.eqb x y) in change (Z.eqb x y) with b end;
      cbn iota;
      match goal with |- exists a', dir_scan ?b _ = _ /\ _ =>
             destruct (IH b Hw) as (a' & E & F & Er & Au) end;
      rewrite E; exists a';
      rewrite F, Er, Au; cbn; unfold flags_of; cbn;
      rewrite ?Z.lor_assoc, ?Z.lor_0_l, ?Z.lor_0_r, <- ?app_assoc; repeat split; reflexivity.
Qed.

Lemma low_flags_lor (x y : Z) : low_flags x -> low_flags y -> low_flags (Z.lor x y).
Proof. intros Hx Hy k Hk. rewrite Z.lor_spec, Hx, Hy by lia. reflexivity. Qed.

Lemma low_flags_const (c : Z) : 0 <= c < 64 -> low_flags c.
Proof.
  intros Hc k Hk. destruct (Z.eq_dec c 0) as [->|Hne]; [apply Z.testbit_0_l|].
  apply Z.bits_above_log2; [lia|]. apply Z.log2_lt_pow2; [lia|].
  assert (2 ^ 6 <= 2 ^ k) by (apply Z.pow_le_mono_r; lia). lia.
Qed.

Lemma low_flags_step (a : DirScan) (r : EntryResult) (flag : option Z) :
  low_flags (ds_flags a) -> low_flags (ds_flags (dir_scan_step a r flag)).
Proof.
  intros H. unfold dir_scan_step.
  destruct r; [exact H|exact H|].
  repeat match goal with |- context [if ?b then _ else _] => destruct b end;
    cbn; try exact H; apply low_flags_lor; try exact H; apply low_flags_const;
    unfold HAS_AUDIO, HAS_ARTWORK, HAS_VIDEO, HAS_TEXT, HAS_MARKER; rewrite Z.shiftl_1_l; lia.
Qed.

Lemma low_flags_scan (a a' : DirScan) (completed : list (outcome (EntryResult * option Z))) :
  low_flags (ds_flags a) -> dir_scan a completed = Ok a' -> low_flags (ds_flags a').
Proof.
  revert a. induction completed as [|[[r flag]|x] rest IH]; intros a Ha E; cbn in E.
  - injection E as <-. exact Ha.
  - exact (IH _ (low_flags_step a r flag Ha) E).
  - discriminate.
Qed.

Lemma audio_file_exit_raise (env : FsEnv) (af : AudioFileExit) (exc : exit_exc)
    (f : FileState) (x : py_exn) :
  audio_file_exit env af exc f = Raise x -> x = ValueError /\ exists s, fs_xattr f = Some (XRaw s).
Proof.
  unfold audio_file_exit. cbn zeta. intros H.
  repeat match type of H with context [if ?b then _ else _] => destruct b end;
    try discriminate;
  unfold _update_verification_ts_on_xattrs, read_verification_ts in H; cbn in H;
  destruct (fs_xattr f) as [[z|s]|]; cbn in H;
  repeat match type of H with context [if ?b then _ else _] => destruct b end;
  try discriminate; injection H as <-; eauto.
Qed.

Lemma first_raise_ok_iff (rs : list (option (outcome (option FileState)))) :
  first_raise rs = Ok tt <-> forall x, ~ In (Some (Raise x)) rs.
Proof.
  induction rs as [|[[r|y]|] t IH]; cbn.
  - split; [intros _ x []|reflexivity].
  - rewrite IH. split; intros H x Hx;
      [destruct Hx as [Hx|Hx]; [discriminate|exact (H x Hx)]|exact (H x (or_intror Hx))].
  - split; [discriminate|intros H; exfalso; exact (H y (or_introl eq_refl))].
  - rewrite IH. split; intros H x Hx;
      [destruct Hx as [Hx|Hx]; [discriminate|exact (H x Hx)]|exact (H x (or_intror Hx))].
Qed.

Lemma cleanup_files_perm (err : option LgErr) (l1 l2 : list FileSlot) :
  Permutation l1 l2 ->
  snd (_cleanup_files err l1) = Ok tt -> snd (_cleanup_files err l2) = Ok tt.
Proof.
  intros Hp. unfold _cleanup_files; cbn [snd]. rewrite !first_raise_ok_iff.
  intros H x Hx. apply (H x). eapply Permutation_in; [|exact Hx].
  apply Permutation_map, Permutation_sym, Hp.
Qed.

Lemma cleanup_audio_raise (err : option LgErr) (files : list LgFileObj) (x : py_exn) :
  snd (_cleanup_files err (map audio_slot files)) = Raise x ->
  x = ValueError /\
  exists env af f s, In (LgAudioFileObj (env, af, f)) files /\ fs_xattr f = Some (XRaw s).
Proof.
  unfold _cleanup_files; cbn [snd].
  induction files as [|o files IH]; cbn; [discriminate|].
  intros H.
  assert (Hr : first_raise (map (fun slot : FileSlot => match slot with
      | Some (env, af, f) => Some (audio_file_exit env af
          (match err with Some e => ExcLg e | None => ExcNone end) f)
      | None => None end) (map audio_slot files)) = Raise x ->
    x = ValueError /\
    exists env af f s, (o = LgAudioFileObj (env, af, f) \/ In (LgAudioFileObj (env, af, f)) files)
      /\ fs_xattr f = Some (XRaw s)).
  { intros H'. destruct (IH H') as (Hx & env & af & f & s & Hin & Hs).
    split; [exact Hx|]. exists env, af, f, s. auto. }
  destruct o as [[[env af] f]| | | | ]; cbn in H; try exact (Hr H).
  destruct (audio_file_exit env af _ f) as [r|y] eqn:Ex; [exact (Hr H)|].
  injection H as <-. destruct (audio_file_exit_raise _ _ _ _ _ Ex) as (Hy & s & Hs).
  split; [exact Hy|]. exists env, af, f, s. auto.
Qed.

Lemma cleanup_failed_ok (errors : list LgErr) (l : list FileSlot) :
  errors <> [] -> snd (_cleanup_files (Some (_pick_withdraw_err errors)) l) = Ok tt.
Proof.
  intros He. unfold _cleanup_files; cbn [snd]. apply first_raise_ok_iff.
  intros x Hx. apply in_map_iff in Hx as ([[[env af] f]|] & Hx & _); [|discriminate].
  injection Hx as Hx. unfold audio_file_exit in Hx.
  rewrite (pick_withdraw_err_nonempty _ He), andb_false_r in Hx. cbn in Hx.
  destruct (ax_should_delete af); discriminate.
Qed.

Lemma lgdirectory_new_ok (dryrun : bool) (entries : list DirEntryKind)
    (completed : list (outcome (EntryResult * option Z))) (nd : NewDir) :
  snd (lgdirectory_new dryrun (Some entries) completed) = Ok nd ->
  exists a, dir_scan (mkDirScan (if has_dir_entry entries then Z.lor 0 HAS_SUBDIRS else 0)
                        [] [] [] [] []) completed = Ok a /\
    low_flags (ds_flags a) /\ flag_in HAS_MARKER (ds_flags a) = false /\
    (if negb (Nat.eqb (length (ds_errors a)) 0) then Ok (mkNewDir LgFailedDirectory (ds_flags a) (ds_errors a) [])
     else if Z.eqb (ds_flags a) HAS_SUBDIRS then Ok (mkNewDir LgIntermediateDirectory (ds_flags a) (ds_errors a) [])
     else if Z.eqb (ds_flags a) HAS_ARTWORK then
       Ok (mkNewDir LgArtworkDirectory (Z.lor (ds_flags a) PART_OF_SET) (ds_errors a) [])
     else if Z.eqb (ds_flags a) HAS_VIDEO then
       Ok (mkNewDir LgVideoDirectory (Z.lor (ds_flags a) PART_OF_SET) (ds_errors a) [])
     else if Z.eqb (ds_flags a) HAS_TEXT then
       Ok (mkNewDir LgInfoDirectory (Z.lor (ds_flags a) PART_OF_SET) (ds_errors a) [])
     else if flag_in HAS_AUDIO (ds_flags a) then
       Ok (mkNewDir LgAudioDirectory (ds_flags a) (ds_errors a) (ds_audio_files a))
     else if negb (flag_in HAS_SUBDIRS (ds_flags a)) then
       Ok (mkNewDir LgDirtyLeafDirectory (ds_flags a) (ds_errors a) [])
     else Ok (mkNewDir LgDirtyIntermediateDirectory (ds_flags a) (ds_errors a) [])) = Ok nd.
Proof.
  unfold lgdirectory_new. destruct entries as [|e es]; [discriminate|]. cbn [snd].
  set (a0 := mkDirScan _ [] [] [] [] []).
  destruct (dir_scan a0 completed) as [a|x] eqn:E; [|discriminate]. cbn [mbind outcome_bind].
  intros H. exists a. split; [reflexivity|]. split.
  - apply (low_flags_scan a0 a completed); [|exact E].
    unfold a0; cbn [ds_flags]. destruct (has_dir_entry (e :: es)); apply low_flags_const;
      rewrite ?Z.lor_0_l; unfold HAS_SUBDIRS; rewrite ?Z.shiftl_1_l; lia.
  - destruct (flag_in HAS_MARKER (ds_flags a));
      [destruct (snd (_cleanup_files _ _)); discriminate|].
    split; [reflexivity|].
    destruct (negb (Nat.eqb (length (ds_errors a)) 0)) eqn:En; [|exact H].
    rewrite cleanup_failed_ok in H; [exact H|].
    intros Ee. rewrite Ee in En. discriminate.
Qed.

(** [LgDirectory.__new__] marks a new directory [PART_OF_SET] exactly when
    it is an artwork, video or info directory. *)
Theorem new_directory_part_of_set (dryrun : bool) (entries : list DirEntryKind)
    (completed : list (outcome (EntryResult * option Z))) (nd : NewDir) :
  snd (lgdirectory_new dryrun (Some entries) completed) = Ok nd ->
  (flag_in PART_OF_SET (nd_flags nd) = true <->
   nd_class nd = LgArtworkDirectory \/ nd_class nd = LgVideoDirectory \/
   nd_class nd = LgInfoDirectory).
Proof.
  intros H. destruct (lgdirectory_new_ok _ _ _ _ H) as (a & _ & Hlow & _ & Hnd).
  assert (Hp : flag_in PART_OF_SET (ds_flags a) = false).
  { unfold PART_OF_SET. rewrite flag_in_testbit by lia. apply Hlow. lia. }
  assert (Hp' : flag_in PART_OF_SET (Z.lor (ds_flags a) PART_OF_SET) = true).
  { unfold PART_OF_SET. rewrite flag_in_testbit by lia. apply testbit_lor_same. reflexivity. }
  repeat match type of Hnd with context [if ?b then _ else _] => destruct b end;
    injection Hnd as <-; cbn; rewrite ?Hp, ?Hp'; intuition congruence.
Qed.

(** A directory fresh from [LgDirectory.__new__] is due for withdrawal
    exactly when it is an [LgFailedDirectory]. *)
Theorem new_directory_withdrawn_iff_failed (dryrun : bool) (entries : list DirEntryKind)
    (completed : list (outcome (EntryResult * option Z))) (nd : NewDir) (parent : option nat) :
  snd (lgdirectory_new dryrun (Some entries) completed) = Ok nd ->
  (should_withdraw (mkDir (nd_flags nd) (nd_errors nd) parent) = true <->
   nd_class nd = LgFailedDirectory).
Proof.
  intros H. destruct (lgdirectory_new_ok _ _ _ _ H) as (a & _ & Hlow & _ & Hnd).
  assert (Hw : flag_in WITHDRAWN (ds_flags a) = false).
  { unfold WITHDRAWN. rewrite flag_in_testbit by lia. apply Hlow. lia. }
  unfold should_withdraw. cbn [d_errors d_flags].
  destruct (Nat.eqb (length (ds_errors a)) 0) eqn:El; cbn [negb] in Hnd.
  - repeat match type of Hnd with context [if ?b then _ else _] => destruct b end;
      injection Hnd as <-; cbn; rewrite El; cbn; intuition congruence.
  - injection Hnd as <-. cbn. rewrite El, Hw. intuition.
Qed.

Lemma testbit_flags_of (created : list (outcome (option LgFileObj))) (c : outcome (option LgFileObj)) (k : Z) :
  In c created -> Z.testbit (created_flag c) k = true -> Z.testbit (flags_of created) k = true.
Proof.
  induction created as [|d rest IH]; intros Hin Hc; [destruct Hin|].
  unfold flags_of; cbn [fold_right]. fold (flags_of rest). rewrite Z.lor_spec.
  destruct Hin as [->|Hin]; [now rewrite Hc|]. rewrite (IH Hin Hc). apply orb_true_r.
Qed.

Lemma flags_of_perm (c1 c2 : list (outcome (option LgFileObj))) :
  Permutation c1 c2 -> flags_of c1 = flags_of c2.
Proof.
  induction 1 as [|x l1 l2 _ IH|x y l|l1 l2 l3 _ IH1 _ IH2]; unfold flags_of in *; cbn.
  - reflexivity.
  - now rewrite IH.
  - rewrite !Z.lor_assoc, (Z.lor_comm (created_flag y)). reflexivity.
  - congruence.
Qed.

Lemma flat_map_perm {B} (f : outcome (option LgFileObj) -> list B)
    (c1 c2 : list (outcome (option LgFileObj))) :
  Permutation c1 c2 -> Permutation (flat_map f c1) (flat_map f c2).
Proof.
  induction 1 as [|x l1 l2 _ IH|x y l|l1 l2 l3 _ IH1 _ IH2]; cbn.
  - constructor.
  - now apply Permutation_app_head.
  - apply Permutation_app_swap_app.
  - now transitivity (flat_map f l2).
Qed.

(** A marker file ([lock], [locked], [ignore]) makes [LgDirectory.__new__]
    raise, whatever the other files gave, as long as no worker raised
    anything but [LgException]: [EIGNORE], unless finalising one of the
    audio files with [_cleanup_files(None, audio_files)] raises ValueError
    on a timestamp attribute that is not an integer.  When no audio file
    carries such an attribute, it raises [EIGNORE]. *)
Theorem marker_ignores_directory (dryrun : bool) (entries : list DirEntryKind)
    (created : list (outcome (option LgFileObj))) :
  entries <> [] -> forallb worker_returns created = true ->
  In (Ok (Some LgMarkerFileObj)) created ->
  (snd (lgdirectory_new dryrun (Some entries) (map (_process_file_entry true) created))
     = Raise (LgException EIGNORE) \/
   snd (lgdirectory_new dryrun (Some entries) (map (_process_file_entry true) created))
     = Raise ValueError) /\
  ((forall env af f s, In (Ok (Some (LgAudioFileObj (env, af, f)))) created ->
                       fs_xattr f <> Some (XRaw s)) ->
   snd (lgdirectory_new dryrun (Some entries) (map (_process_file_entry true) created))
   = Raise (LgException EIGNORE)).
Proof.
  intros Hne Hw Hm. destruct entries as [|e es]; [contradiction|].
  unfold lgdirectory_new. cbn [snd].
  destruct (dir_scan_created (mkDirScan (if has_dir_entry (e :: es) then Z.lor 0 HAS_SUBDIRS else 0)
              [] [] [] [] []) created Hw) as (a & E & F & _ & Au).
  rewrite E. cbn [mbind outcome_bind].
  replace (flag_in HAS_MARKER (ds_flags a)) with true.
  2:{ symmetry. unfold HAS_MARKER. rewrite flag_in_testbit, F by lia. cbn [ds_flags].
      rewrite Z.lor_spec, (testbit_flags_of created _ 4 Hm eq_refl). apply orb_true_r. }
  destruct (snd (_cleanup_files None (map audio_slot (ds_audio_files a)))) as [[]|x] eqn:R;
    cbn [mbind outcome_bind].
  - split; [left; reflexivity|intros _; reflexivity].
  - destruct (cleanup_audio_raise _ _ _ R) as (-> & env & af & f & s & Hin & Hs).
    split; [right; reflexivity|]. intros Hx. exfalso. apply (Hx env af f s); [|exact Hs].
    rewrite Au in Hin. cbn in Hin. apply in_flat_map in Hin as (c & Hc & Hin).
    destruct c as [[[slot| | | | ]|]|y]; cbn in Hin; try contradiction.
    destruct Hin as [Hin|[]]. injection Hin as ->. exact Hc.
Qed.

(** The order in which the file workers complete does not matter, as
    long as every worker returned or raised an [LgException]: two
    completion orders give the same class and flags, and the same errors
    and audio files up to order, or both raise, [EIGNORE] for both or for
    neither (finalising the audio files of a marked directory re-raises
    the exception of the first failing file of the list). *)
Theorem lgdirectory_new_order_independent (dryrun : bool) (entries : list DirEntryKind)
    (c1 c2 : list (outcome (option LgFileObj))) :
  Permutation c1 c2 -> forallb worker_returns c1 = true ->
  match snd (lgdirectory_new dryrun (Some entries) (map (_process_file_entry true) c1)),
        snd (lgdirectory_new dryrun (Some entries) (map (_process_file_entry true) c2)) with
  | Ok n1, Ok n2 =>
      nd_class n1 = nd_class n2 /\ nd_flags n1 = nd_flags n2 /\
      Permutation (nd_errors n1) (nd_errors n2) /\
      Permutation (nd_audio_files n1) (nd_audio_files n2)
  | Raise x1, Raise x2 => x1 = LgException EIGNORE <-> x2 = LgException EIGNORE
  | _, _ => False
  end.
Proof.
  intros Hp Hw1.
  assert (Hw2 : forallb worker_returns c2 = true).
  { apply forallb_forall. intros c Hc. apply (proj1 (forallb_forall _ _) Hw1).
    apply (Permutation_in c (Permutation_sym Hp) Hc). }
  destruct entries as [|e es]; [cbn; tauto|].
  unfold lgdirectory_new. cbn [snd].
  set (a0 := mkDirScan (if has_dir_entry (e :: es) then Z.lor 0 HAS_SUBDIRS else 0) [] [] [] [] []).
  destruct (dir_scan_created a0 c1 Hw1) as (a1 & E1 & F1 & Er1 & Au1).
  destruct (dir_scan_created a0 c2 Hw2) as (a2 & E2 & F2 & Er2 & Au2).
  rewrite E1, E2. cbn [mbind outcome_bind].
  assert (Hf : ds_flags a1 = ds_flags a2) by (rewrite F1, F2; f_equal; now apply flags_of_perm).
  assert (He : Permutation (ds_errors a1) (ds_errors a2))
    by (rewrite Er1, Er2; now apply flat_map_perm).
  assert (Ha : Permutation (ds_audio_files a1) (ds_audio_files a2))
    by (rewrite Au1, Au2; now apply flat_map_perm).
  rewrite <- Hf, <- (Permutation_length He).
  destruct (flag_in HAS_MARKER (ds_flags a1)).
  - destruct (snd (_cleanup_files None (map audio_slot (ds_audio_files a1)))) as [[]|x1] eqn:R1;
    destruct (snd (_cleanup_files None (map audio_slot (ds_audio_files a2)))) as [[]|x2] eqn:R2;
    cbn [mbind outcome_bind].
    + tauto.
    + rewrite (cleanup_files_perm _ _ _ (Permutation_map audio_slot Ha) R1) in R2. discriminate.
    + rewrite (cleanup_files_perm _ _ _ (Permutation_map audio_slot (Permutation_sym Ha)) R2) in R1.
      discriminate.
    + destruct (cleanup_audio_raise _ _ _ R1) as (-> & _).
      destruct (cleanup_audio_raise _ _ _ R2) as (-> & _). tauto.
  - destruct (negb (Nat.eqb (length (ds_errors a1)) 0)) eqn:En.
    + assert (N1 : ds_errors a1 <> []) by (intros Ee; rewrite Ee in En; discriminate).
      assert (N2 : ds_errors a2 <> []).
      { intros Ee. pose proof (Permutation_length He) as L. rewrite Ee in L.
        rewrite L in En. discriminate. }
      rewrite (cleanup_failed_ok _ _ N1), (cleanup_failed_ok _ _ N2).
      cbn [mbind outcome_bind]. cbn. repeat split; auto.
    + repeat match goal with |- context [if ?b then _ else _] => destruct b end;
        cbn; repeat split; auto.
Qed.

(** [LgAudioFile.__new__] on a fully analysed file of a known format: the
    verification state is EINVBITS for a bit depth below 16, else
    EINVSRATE below 44100 Hz, else EINVBRATE below the format's minimum
    bit rate (when it has one), else EOK. *)
Theorem audio_file_new_status (p : Probe) (fi : FormatInfo) :
  FORMAT_MAP (pr_format_name p) = Some fi ->
  audio_file_new (Analyzed p) true true =
  Ok (Some (fi, Some (if pr_bit_depth p <? 16 then EINVBITS
                      else if pr_sample_rate p <? 44100 then EINVSRATE
                      else if (0 <? fi_min_bitrate fi) && (pr_bit_rate p <? fi_min_bitrate fi)
                      then EINVBRATE else EOK))).
Proof.
  intros H. unfold audio_file_new. cbn [mbind outcome_bind]. rewrite H. cbn -[Z.ltb].
  unfold MIN_SRATE.
  destruct (pr_bit_depth p <? 16), (pr_sample_rate p <? 44100),
    ((0 <? fi_min_bitrate fi) && (pr_bit_rate p <? fi_min_bitrate fi)); reflexivity.
Qed.

(** A decode failure (CodecError) with a partial probe keeps the state
    ECORRUPTED: the rate and depth checks do not override it. *)
Theorem audio_file_new_corrupted_kept (p : Probe) (fi : FormatInfo) :
  FORMAT_MAP (pr_format_name p) = Some fi ->
  audio_file_new (AnalysisFailed AunCodecError (Some p)) true true = Ok (Some (fi, Some ECORRUPTED)).
Proof. intros H. unfold audio_file_new. cbn [mbind outcome_bind]. now rewrite H. Qed.

(** An analyser error other than CodecError and EBU128Error, with a partial
    probe whose depth and rates pass, leaves the verification state
    [None]: neither EOK nor an error code. *)
Theorem audio_file_new_unclassified_error (p : Probe) (fi : FormatInfo) :
  FORMAT_MAP (pr_format_name p) = Some fi ->
  16 <= pr_bit_depth p -> 44100 <= pr_sample_rate p ->
  (fi_min_bitrate fi <= 0 \/ fi_min_bitrate fi <= pr_bit_rate p) ->
  audio_file_new (AnalysisFailed AunOtherError (Some p)) true true = Ok (Some (fi, None)).
Proof.
  intros H Hd Hs Hb. unfold audio_file_new. cbn [mbind outcome_bind]. rewrite H.
  unfold MIN_SRATE.
  replace (pr_bit_depth p <? 16) with false by (symmetry; apply Z.ltb_ge; lia).
  replace (pr_sample_rate p <? 44100) with false by (symmetry; apply Z.ltb_ge; lia).
  replace ((0 <? fi_min_bitrate fi) && (pr_bit_rate p <? fi_min_bitrate fi)) with false.
  - reflexivity.
  - destruct Hb as [Hb|Hb].
    + replace (0 <? fi_min_bitrate fi) with false by (symmetry; apply Z.ltb_ge; lia). reflexivity.
    + replace (pr_bit_rate p <? fi_min_bitrate fi) with false by (symmetry; apply Z.ltb_ge; lia).
      now rewrite andb_false_r.
Qed.

Lemma Zabs_sub_sym (a b : Z) : Z.abs (a - b) = Z.abs (b - a).
Proof. lia. Qed.

(** Without a MusicBrainz reference, [_compare_duration] is antisymmetric:
    swapping the files negates the score and keeps [None]. *)
Theorem compare_duration_antisymmetric (d1 d2 : option Z) :
  _compare_duration d2 d1 None = option_map py_number_neg (_compare_duration d1 d2 None).
Proof.
  unfold _compare_duration. rewrite (Zabs_sub_sym (or_zero d2)).
  set (a := or_zero d1). set (b := or_zero d2). clearbody a b.
  destruct (Z.eqb_spec a 0), (Z.eqb_spec b 0), (Z.ltb_spec 0 a), (Z.ltb_spec 0 b),
    (Z.leb_spec (Z.abs (a - b)) 2), (Z.leb_spec (Z.abs (a - b)) 5),
    (Z.ltb_spec a b), (Z.ltb_spec b a); cbn; try reflexivity; try lia.
Qed.

(** [_compare_duration] gives [None] exactly when there is no reference,
    neither duration alone is zero, and they differ by more than 5. *)
Lemma compare_duration_none_iff (d1 d2 : option Z) (reference : option float) :
  _compare_duration d1 d2 reference = None <->
  reference = None /\
  ~ (or_zero d1 = 0 /\ 0 < or_zero d2) /\ ~ (0 < or_zero d1 /\ or_zero d2 = 0) /\
  5 < Z.abs (or_zero d1 - or_zero d2).
Proof.
  unfold _compare_duration.
  set (a := or_zero d1). set (b := or_zero d2). clearbody a b.
  destruct reference as [r|];
  repeat match goal with |- context [if ?c then _ else _] => destruct c eqn:? end;
  rewrite ?andb_true_iff, ?andb_false_iff, ?Z.eqb_eq, ?Z.eqb_neq, ?Z.ltb_lt, ?Z.ltb_ge,
    ?Z.leb_le, ?Z.leb_gt in *;
  split; intros Hn; try discriminate; try (destruct Hn as (Hn&_); discriminate);
  try (destruct Hn as (_&H1&H2&H3); intuition lia); intuition lia.
Qed.

(** [LgAudioFile.__lt__] between equal tracks raises ValueError exactly
    when no reference duration is available, both durations are set or
    both unset (as [x or 0]), and they differ by more than 5 seconds. *)
Theorem audio_lt_raises_iff (str_hash : string -> Z) (none_hash : Z)
    (self other : AudioFileQM) (reference : option float) :
  trackinfo_eq str_hash none_hash (af_track_info self) (af_track_info other) = true ->
  let d1 := or_zero (duration_secs (af_track_info self)) in
  let d2 := or_zero (duration_secs (af_track_info other)) in
  audio_lt str_hash none_hash self other reference = Raise ValueError <->
  reference = None /\ ~ (d1 = 0 /\ 0 < d2) /\ ~ (0 < d1 /\ d2 = 0) /\ 5 < Z.abs (d1 - d2).
Proof.
  intros Heq. cbv zeta. rewrite <- compare_duration_none_iff.
  unfold audio_lt. rewrite Heq. cbn [negb].
  destruct (_compare_duration _ _ _).
  - split; [|discriminate]. destruct (_ =? _)%float; discriminate.
  - tauto.
Qed.

Lemma add_album_try_shape (ora : nat -> bool) (db : DB) (path rg aid : string) :
  fst (fst (add_album_try ora db path rg aid)) = db \/
  (dup_warnings rg_dup_msg (other_paths (release_groups db) rg path) ++
   dup_warnings album_dup_msg (other_paths (albums db) aid path) = [] /\
   fst (fst (add_album_try ora db path rg aid)) = with_missing_rows db path rg aid).
Proof.
  unfold add_album_try, sql, with_missing_rows.
  destruct (ora 0%nat); cbn; [now left|].
  destruct (ora 1%nat); cbn; [now left|].
  destruct (ora 2%nat); cbn; [now left|].
  destruct (row_exists (release_groups db) rg path) eqn:Erg,
           (row_exists (albums db) aid path) eqn:Eal; cbn; [now left| | |].
  all: destruct (ora 3%nat); cbn; [now left|]; destruct (ora 4%nat); cbn; [now left|].
  all: fold rg_dup_msg album_dup_msg.
  all: destruct (dup_warnings rg_dup_msg _ ++ dup_warnings album_dup_msg _) eqn:W; cbn; [|now left].
  all: unfold sql_insert; rewrite ?Erg, ?Eal.
  all: destruct (ora 5%nat), (ora 6%nat), (ora 7%nat); cbn; try (now left).
  all: right; split; [reflexivity|]; rewrite ?Erg, ?Eal; reflexivity.
Qed.

Lemma add_album_db_shape (ora : nat -> bool) (db : DB) (path : string)
    (rgo aido : option string) :
  fst (fst (add_album ora db path rgo aido)) = db \/
  exists rg aid, rgo = Some rg /\ aido = Some aid /\ path <> ""%string /\
    rg <> ""%string /\ aid <> ""%string /\
    dup_warnings rg_dup_msg (other_paths (release_groups db) rg path) ++
    dup_warnings album_dup_msg (other_paths (albums db) aid path) = [] /\
    fst (fst (add_album ora db path rgo aido)) = with_missing_rows db path rg aid.
Proof.
  destruct (String.eqb_spec path ""%string) as [Hp|Hp];
    [left; unfold add_album; subst path; reflexivity|].
  destruct rgo as [rg|]; [|left; unfold add_album; destruct (String.eqb path ""); reflexivity].
  destruct aido as [aid|]; [|left; unfold add_album; destruct (String.eqb path ""); reflexivity].
  destruct (String.eqb_spec rg ""%string) as [Hr|Hr];
    [left; unfold add_album; subst rg; destruct (String.eqb path ""); reflexivity|].
  destruct (String.eqb_spec aid ""%string) as [Ha|Ha];
    [left; unfold add_album; subst aid; destruct (String.eqb path ""), (String.eqb rg ""); reflexivity|].
  rewrite (add_album_guards ora db path rg aid Hp Hr Ha).
  pose proof (add_album_try_shape ora db path rg aid) as Hs.
  destruct (add_album_try ora db path rg aid) as [[d l] r]. cbn in Hs.
  assert (Hd : fst (fst (match r with
                         | Raise SqliteError => (d, l, add_album_handler)
                         | _ => (d, l, r) end)) = d) by (destruct r as [|[]]; reflexivity).
  rewrite Hd. destruct Hs as [Hs|[W Hs]]; [now left|].
  right. exists rg, aid. repeat split; auto.
Qed.

Lemma not_in_ids (rows : list (string * string)) (id path : string) :
  other_paths rows id path = [] -> row_exists rows id path = false -> ~ In id (map fst rows).
Proof.
  intros Ho Hr Hin. apply in_map_iff in Hin as [[i p] [Hi Hin]]. cbn in Hi. subst i.
  destruct (String.eqb_spec p path) as [->|Hne].
  - assert (row_exists rows id path = true) as Ht; [|congruence].
    apply existsb_exists. exists (id, path). cbn. rewrite !String.eqb_refl. split; [exact Hin|reflexivity].
  - assert (In p (other_paths rows id path)) as Hp; [|rewrite Ho in Hp; exact Hp].
    apply in_map_iff. exists (id, p). split; [reflexivity|].
    apply filter_In. split; [exact Hin|]. cbn. rewrite String.eqb_refl.
    apply String.eqb_neq in Hne. now rewrite Hne.
Qed.

Lemma NoDup_snoc {A} (l : list A) (x : A) : NoDup l -> ~ In x l -> NoDup (l ++ [x]).
Proof.
  intros Hl Hx. apply NoDup_app. split; [exact Hl|]. split; [|apply NoDup_singleton].
  intros y Hy Hy'. apply list_elem_of_singleton in Hy'. subst y.
  apply Hx. apply list_elem_of_In. exact Hy.
Qed.

Lemma row_exists_snoc (rows : list (string * string)) (id path : string) :
  row_exists (rows ++ [(id, path)]) id path = true.
Proof.
  unfold row_exists. rewrite existsb_app. cbn. rewrite !String.eqb_refl. apply orb_true_r.
Qed.

Lemma warnings_nil_other_paths (db : DB) (path rg aid : string) :
  paths_nonempty db ->
  dup_warnings rg_dup_msg (other_paths (release_groups db) rg path) ++
  dup_warnings album_dup_msg (other_paths (albums db) aid path) = [] ->
  other_paths (release_groups db) rg path = [] /\ other_paths (albums db) aid path = [].
Proof.
  intros [Hrg Hal] W.
  exact (proj1 (dup_warnings_nil_iff _ _ _ _ (other_paths_nonempty _ rg path Hrg)
                  (other_paths_nonempty _ aid path Hal)) W).
Qed.

(** [add_album] never stores an empty path: an index whose paths are all
    non-empty keeps that property, whatever SQL statements fail. *)
Theorem add_album_keeps_paths_nonempty (ora : nat -> bool) (db : DB) (path : string)
    (rgo aido : option string) :
  paths_nonempty db -> paths_nonempty (fst (fst (add_album ora db path rgo aido))).
Proof.
  intros Hne.
  destruct (add_album_db_shape ora db path rgo aido)
    as [->|(rg & aid & _ & _ & Hp & _ & _ & _ & ->)]; [exact Hne|].
  destruct Hne as [Hrg Hal]. unfold with_missing_rows. split; cbn.
  - destruct (row_exists (release_groups db) rg path); [exact Hrg|].
    apply Forall_app. split; [exact Hrg|]. constructor; [exact Hp|constructor].
  - destruct (row_exists (albums db) aid path); [exact Hal|].
    apply Forall_app. split; [exact Hal|]. constructor; [exact Hp|constructor].
Qed.

(** On an index with non-empty paths, [add_album] keeps each release-group
    id and each album id in at most one row: an id already stored at
    another path is reported, not inserted. *)
Theorem add_album_keeps_ids_unique (ora : nat -> bool) (db : DB) (path : string)
    (rgo aido : option string) :
  paths_nonempty db -> ids_unique db -> ids_unique (fst (fst (add_album ora db path rgo aido))).
Proof.
  intros Hne [Urg Ual].
  destruct (add_album_db_shape ora db path rgo aido)
    as [->|(rg & aid & _ & _ & _ & _ & _ & W & ->)]; [split; assumption|].
  destruct (warnings_nil_other_paths db path rg aid Hne W) as [Orp Oap].
  unfold with_missing_rows. split; cbn.
  - destruct (row_exists (release_groups db) rg path) eqn:E; [exact Urg|].
    rewrite map_app. apply NoDup_snoc; [exact Urg|]. exact (not_in_ids _ _ _ Orp E).
  - destruct (row_exists (albums db) aid path) eqn:E; [exact Ual|].
    rewrite map_app. apply NoDup_snoc; [exact Ual|]. exact (not_in_ids _ _ _ Oap E).
Qed.

Lemma add_album_nofail_repeat (db : DB) (path : string) (rgo aido : option string) :
  let db1 := fst (fst (add_album (fun _ => false) db path rgo aido)) in
  fst (fst (add_album (fun _ => false) db1 path rgo aido)) = db1.
Proof.
  cbv zeta.
  destruct (add_album_db_shape (fun _ => false) db path rgo aido)
    as [E|(rg & aid & -> & -> & Hp & Hr & Ha & _ & E)]; rewrite E; [exact E|].
  rewrite (add_album_guards _ _ path rg aid Hp Hr Ha).
  assert (R1 : row_exists (release_groups (with_missing_rows db path rg aid)) rg path = true).
  { unfold with_missing_rows. cbn. destruct (row_exists (release_groups db) rg path) eqn:R;
      [exact R|apply row_exists_snoc]. }
  assert (R2 : row_exists (albums (with_missing_rows db path rg aid)) aid path = true).
  { unfold with_missing_rows. cbn. destruct (row_exists (albums db) aid path) eqn:R;
      [exact R|apply row_exists_snoc]. }
  unfold add_album_try, sql. cbn [mbind outcome_bind]. rewrite R1, R2. reflexivity.
Qed.


(** Without SQL failures, repeating an [add_album] call leaves the index
    as the first call left it. *)
Theorem add_album_idempotent (db : DB) (path : string) (rgo aido : option string) :
  let db1 := fst (fst (add_album (fun _ => false) db path rgo aido)) in
  fst (fst (add_album (fun _ => false) db1 path rgo aido)) = db1.
Proof. exact (add_album_nofail_repeat db path rgo aido). Qed.

Lemma register_db (fail : nat -> bool) paths ti st self db d :
  st !! self = Some d -> d_errors d = [] ->
  album_id ti <> None -> releasegroup_id ti <> None ->
  fst (fst (register fail paths ti st self db)) =
  fst (fst (add_album fail db
    (path_arg (match (if flag_in PART_OF_SET (d_flags d) then d_parent d else None) with
               | Some p => match st !! p with Some pd => dir_get_path paths p pd | None => None end
               | None => Some (fst (paths self)) end))
    (releasegroup_id ti) (album_id ti))).
Proof.
  intros Hs He Ha Hr. unfold register. rewrite Hs, He. cbn [length Nat.eqb negb].
  destruct (album_id ti) as [aid|]; [|congruence].
  destruct (releasegroup_id ti) as [rg|]; [|congruence].
  destruct (add_album _ _ _ _ _) as [[db' log] [|[]]]; reflexivity.
Qed.

(** Two error-free members of a set under the same parent, whose first
    tracks carry the same ids, are both registered under the parent's
    path: registering the second leaves the index as the first left it. *)
Theorem register_set_members_share_entry (paths : nat -> string * option string)
    (ti1 ti2 : TrackInfo) (st : DirStore) (i j p : nat) (di dj : Dir) (db : DB) :
  st !! i = Some di -> st !! j = Some dj ->
  d_errors di = [] -> d_errors dj = [] ->
  flag_in PART_OF_SET (d_flags di) = true -> flag_in PART_OF_SET (d_flags dj) = true ->
  d_parent di = Some p -> d_parent dj = Some p -> is_Some (st !! p) ->
  album_id ti1 = album_id ti2 -> releasegroup_id ti1 = releasegroup_id ti2 ->
  album_id ti1 <> None -> releasegroup_id ti1 <> None ->
  let db1 := fst (fst (register (fun _ => false) paths ti1 st i db)) in
  fst (fst (register (fun _ => false) paths ti2 st j db1)) = db1.
Proof.
  intros Hi Hj Ei Ej Fi Fj Pi Pj [pd Hp] A R Ha Hr. cbv zeta.
  rewrite (register_db _ _ _ _ _ _ dj Hj Ej) by congruence.
  rewrite (register_db _ _ _ _ _ _ di Hi Ei) by congruence.
  rewrite Fi, Fj, Pi, Pj, Hp, <- A, <- R.
  apply add_album_nofail_repeat.
Qed.



Definition ranges_disjoint (r1 r2 : list (Z * Z)) : bool :=
  forallb (fun r => forallb (fun q => (snd r <? fst q) || (snd q <? fst r)) r2) r1.

Lemma in_ranges_disjoint (r1 r2 : list (Z * Z)) (c : Z) :
  ranges_disjoint r1 r2 = true -> in_ranges r1 c = true -> in_ranges r2 c = false.
Proof.
  unfold ranges_disjoint, in_ranges. intros H H1.
  apply existsb_exists in H1 as (r & Hr & Hc1).
  apply not_true_is_false. intros H2. apply existsb_exists in H2 as (q & Hq & Hc2).
  rewrite forallb_forall in H. specialize (H r Hr). rewrite forallb_forall in H.
  specialize (H q Hq).
  apply andb_true_iff in Hc1 as [Hc1 Hc1']. apply andb_true_iff in Hc2 as [Hc2 Hc2'].
  apply orb_true_iff in H as [H|H]; rewrite Z.ltb_lt in H; rewrite Z.leb_le in *; lia.
Qed.

Lemma digit_not_space (c : Z) : py_isdigit_cp c = true -> py_isspace_cp c = false.
Proof.
  unfold py_isdigit_cp, py_isdecimal_cp, py_isspace_cp. intros H.
  apply orb_true_iff in H as [H|H]; revert H; apply in_ranges_disjoint; vm_compute; reflexivity.
Qed.

Lemma decimal_is_digit (c : Z) : py_isdecimal_cp c = true -> py_isdigit_cp c = true.
Proof. unfold py_isdigit_cp. intros ->. reflexivity. Qed.

Lemma forallb_decimal_digit (s : pystr) :
  forallb py_isdecimal_cp s = true -> forallb py_isdigit_cp s = true.
Proof.
  rewrite !forallb_forall. intros H c Hc. apply decimal_is_digit, H, Hc.
Qed.

Lemma forallb_rev {A} (f : A -> bool) (l : list A) : forallb f (rev l) = forallb f l.
Proof.
  induction l as [|x t IH]; cbn; [reflexivity|].
  rewrite forallb_app, IH. cbn. rewrite andb_true_r. apply andb_comm.
Qed.

Lemma lstrip_digits (s : pystr) : forallb py_isdigit_cp s = true -> lstrip s = s.
Proof.
  destruct s as [|c t]; cbn [lstrip forallb]; [reflexivity|].
  intros H. apply andb_true_iff in H as [H _]. now rewrite (digit_not_space c H).
Qed.

Lemma strip_digits (s : pystr) : forallb py_isdigit_cp s = true -> py_strip s = s.
Proof.
  intros H. unfold py_strip. rewrite (lstrip_digits s H).
  rewrite lstrip_digits by (now rewrite forallb_rev). apply rev_involutive.
Qed.

Lemma lstrip_no_decimal (s : pystr) :
  forallb (fun c => negb (py_isdecimal_cp c)) s = true ->
  forallb (fun c => negb (py_isdecimal_cp c)) (lstrip s) = true.
Proof.
  induction s as [|c t IH]; cbn [lstrip forallb]; [reflexivity|].
  intros H. apply andb_true_iff in H as [H1 H2].
  destruct (py_isspace_cp c); [now apply IH|]. cbn [forallb]. now rewrite H1, H2.
Qed.

Lemma py_int_digits (p : pystr) :
  forallb py_isdigit_cp p = true ->
  py_int p = if str_isdecimal p && (Z.of_nat (length p) <=? int_max_str_digits)
             then Ok (decimal_value p) else Raise ValueError.
Proof. intros H. unfold py_int. now rewrite (strip_digits p H). Qed.

Lemma take_digits_app (ds rest : pystr) :
  forallb py_isdecimal_cp ds = true ->
  match rest with [] => True | c :: _ => py_isdecimal_cp c = false end ->
  take_digits (ds ++ rest) = ds.
Proof.
  induction ds as [|c t IH]; intros Hd Hr; cbn [app take_digits].
  - destruct rest as [|c rest]; [reflexivity|]. cbn [take_digits]. now rewrite Hr.
  - cbn [forallb] in Hd. apply andb_true_iff in Hd as [H1 H2]. rewrite H1, IH; auto.
Qed.

Lemma search_digits_app (pre ds rest : pystr) :
  forallb (fun c => negb (py_isdecimal_cp c)) pre = true ->
  str_isdecimal ds = true ->
  match rest with [] => True | c :: _ => py_isdecimal_cp c = false end ->
  search_digits (pre ++ ds ++ rest) = Some ds.
Proof.
  induction pre as [|c t IH]; intros Hp Hd Hr; cbn [app search_digits].
  - destruct ds as [|c ds]; [discriminate|]. cbn [str_isdecimal forallb] in Hd |- *.
    cbn [app search_digits].
    apply andb_true_iff in Hd as [H1 H2]. rewrite H1. cbn [take_digits].
    rewrite H1, take_digits_app; auto.
  - cbn [forallb] in Hp. apply andb_true_iff in Hp as [H1 H2].
    destruct (py_isdecimal_cp c); [discriminate|]. auto.
Qed.

Lemma search_digits_none (s : pystr) :
  search_digits s = None <-> forallb (fun c => negb (py_isdecimal_cp c)) s = true.
Proof.
  induction s as [|c t IH]; cbn [search_digits forallb]; [tauto|].
  destruct (py_isdecimal_cp c); cbn [negb andb]; [split; discriminate|exact IH].
Qed.

(** [_get_int_from_tag] on a value with a leading text free of decimal
    digits, a run of decimal digits, and then anything not starting with
    one. *)
Lemma get_int_run (pre ds rest : pystr) :
  forallb (fun c => negb (py_isdecimal_cp c)) pre = true ->
  str_isdecimal ds = true ->
  match rest with [] => True | c :: _ => py_isdecimal_cp c = false end ->
  _get_int_from_tag (Some (pre ++ ds ++ rest)) =
  if Z.of_nat (length ds) <=? int_max_str_digits then Ok (Some (decimal_value ds))
  else Raise (LgException EINVTAGS).
Proof.
  intros Hp Hd Hr. unfold _get_int_from_tag. rewrite (search_digits_app pre ds rest Hp Hd Hr).
  assert (Hf : forallb py_isdecimal_cp ds = true) by (destruct ds; [discriminate|exact Hd]).
  rewrite (py_int_digits ds (forallb_decimal_digit ds Hf)), Hd. cbn [andb].
  destruct (Z.of_nat (length ds) <=? int_max_str_digits); reflexivity.
Qed.

Lemma py_int_ok (p : pystr) (n : Z) :
  str_isdigit p = true -> py_int p = Ok n ->
  str_isdecimal p = true /\ Z.of_nat (length p) <= int_max_str_digits /\ n = decimal_value p.
Proof.
  intros Hd. assert (Hf : forallb py_isdigit_cp p = true) by (destruct p; [discriminate|exact Hd]).
  rewrite (py_int_digits p Hf).
  destruct (str_isdecimal p) eqn:E1, (Z.of_nat (length p) <=? int_max_str_digits) eqn:E2;
    cbn; try discriminate.
  intros H. injection H as <-. apply Z.leb_le in E2. auto.
Qed.

Lemma slash_not_digit : py_isdigit_cp SLASH = false.
Proof. vm_compute. reflexivity. Qed.

Lemma digits_no_slash (ds : pystr) :
  forallb py_isdigit_cp ds = true -> forallb (fun c => negb (Z.eqb c SLASH)) ds = true.
Proof.
  rewrite !forallb_forall. intros H c Hc. specialize (H c Hc).
  destruct (Z.eqb_spec c SLASH) as [->|]; [now rewrite slash_not_digit in H|reflexivity].
Qed.

Lemma split_digits (ds rest : pystr) :
  forallb (fun c => negb (Z.eqb c SLASH)) ds = true ->
  py_split_on SLASH (ds ++ SLASH :: rest) = ds :: py_split_on SLASH rest.
Proof.
  induction ds as [|c t IH]; intros H; cbn [app py_split_on]; [now rewrite Z.eqb_refl|].
  cbn [forallb] in H. apply andb_true_iff in H as [H1 H2]. apply negb_true_iff in H1.
  rewrite H1, IH by exact H2. reflexivity.
Qed.

Lemma split_digits_end (ds : pystr) :
  forallb (fun c => negb (Z.eqb c SLASH)) ds = true -> py_split_on SLASH ds = [ds].
Proof.
  induction ds as [|c t IH]; intros H; cbn [py_split_on]; [reflexivity|].
  cbn [forallb] in H. apply andb_true_iff in H as [H1 H2]. apply negb_true_iff in H1.
  rewrite H1, IH by exact H2. reflexivity.
Qed.

Lemma has_slash (ds rest : pystr) : existsb (Z.eqb SLASH) (ds ++ SLASH :: rest) = true.
Proof. rewrite existsb_app. cbn [existsb]. rewrite Z.eqb_refl. apply orb_true_r. Qed.

Lemma no_slash (ds : pystr) :
  forallb (fun c => negb (Z.eqb c SLASH)) ds = true -> existsb (Z.eqb SLASH) ds = false.
Proof.
  induction ds as [|c t IH]; cbn [existsb forallb]; [reflexivity|].
  intros H. apply andb_true_iff in H as [H1 H2]. rewrite Z.eqb_sym.
  apply negb_true_iff in H1. now rewrite H1, IH.
Qed.

Lemma split_first (s : pystr) :
  existsb (Z.eqb SLASH) s = true ->
  exists p0 r, s = p0 ++ SLASH :: r /\ exists ws, py_split_on SLASH s = p0 :: ws.
Proof.
  induction s as [|c t IH]; cbn [existsb py_split_on]; [discriminate|].
  rewrite (Z.eqb_sym SLASH c).
  destruct (Z.eqb_spec c SLASH) as [->|Hc]; cbn [orb].
  - intros _. exists [], t. split; [reflexivity|]. eauto.
  - intros Ht. destruct (IH Ht) as (p0 & r & -> & ws & Hw).
    exists (c :: p0), r. split; [reflexivity|]. rewrite Hw. eauto.
Qed.

(** [_get_int_from_tag] returns [None] exactly when the value has no
    decimal digit and its [strip()] is not accepted by [isdigit()]; a value
    without decimal digits whose [strip()] is ([U+00B2], superscript two)
    makes [int()] raise, hence [EINVTAGS]; and [EINVTAGS] is the only
    exception it raises. *)
Theorem get_int_from_tag_none_iff (s : pystr) :
  (_get_int_from_tag (Some s) = Ok None <->
   forallb (fun c => negb (py_isdecimal_cp c)) s = true /\ str_isdigit (py_strip s) = false) /\
  (forallb (fun c => negb (py_isdecimal_cp c)) s = true -> str_isdigit (py_strip s) = true ->
   _get_int_from_tag (Some s) = Raise (LgException EINVTAGS)) /\
  (forall x, _get_int_from_tag (Some s) = Raise x -> x = LgException EINVTAGS).
Proof.
  assert (Hraise : forallb (fun c => negb (py_isdecimal_cp c)) s = true ->
                   py_int s = Raise ValueError).
  { intros H. unfold py_int.
    assert (Hs : forallb (fun c => negb (py_isdecimal_cp c)) (py_strip s) = true).
    { unfold py_strip. rewrite forallb_rev. apply lstrip_no_decimal.
      rewrite forallb_rev. now apply lstrip_no_decimal. }
    destruct (py_strip s) as [|c t]; [reflexivity|].
    cbn [forallb] in Hs. apply andb_true_iff in Hs as [H1 _].
    unfold str_isdecimal. cbn [forallb].
    destruct (py_isdecimal_cp c); [discriminate|reflexivity]. }
  split; [|split].
  - unfold _get_int_from_tag. split.
    + destruct (search_digits s) as [m|] eqn:E; intros H.
      * destruct (py_int m) as [v|[]]; cbn in H; discriminate.
      * apply search_digits_none in E. split; [exact E|].
        destruct (str_isdigit (py_strip s)); [|reflexivity].
        rewrite (Hraise E) in H. cbn in H. discriminate.
    + intros [H1 H2]. rewrite (proj2 (search_digits_none s) H1), H2. reflexivity.
  - intros H1 H2. unfold _get_int_from_tag.
    rewrite (proj2 (search_digits_none s) H1), H2, (Hraise H1). reflexivity.
  - intros x. unfold _get_int_from_tag, py_int.
    destruct (search_digits s);
      repeat match goal with |- context [if ?b then _ else _] => destruct b end;
      cbn; intros H; congruence.
Qed.

(** [_get_int_from_tag] reads the first run of decimal digits, skipping
    any leading text, as long as the run has at most 4300 digits; a longer
    run makes [int()] raise, hence [EINVTAGS]. *)
Theorem get_int_from_tag_first_number (pre ds rest : pystr) :
  forallb (fun c => negb (py_isdecimal_cp c)) pre = true ->
  str_isdecimal ds = true ->
  match rest with [] => True | c :: _ => py_isdecimal_cp c = false end ->
  _get_int_from_tag (Some (pre ++ ds ++ rest)) =
  if Z.of_nat (length ds) <=? int_max_str_digits then Ok (Some (decimal_value ds))
  else Raise (LgException EINVTAGS).
Proof. exact (get_int_run pre ds rest). Qed.

(** ["n/m"] with runs [n] and [m] of at most 4300 decimal digits reads
    back as the pair, and whatever follows a second separator is ignored.
    A first part that [isdigit()] accepts but [int()] refuses (a digit
    such as [U+00B2] that is not decimal, or more than 4300 digits) makes
    it raise [EINVTAGS], with or without a separator after it. *)
Theorem get_intpair_from_tag_digits (ds1 ds2 rest : pystr) :
  str_isdecimal ds1 = true -> str_isdecimal ds2 = true ->
  Z.of_nat (length ds1) <= int_max_str_digits -> Z.of_nat (length ds2) <= int_max_str_digits ->
  _get_intpair_from_tag (Some (ds1 ++ SLASH :: ds2)) =
    Ok (Some (decimal_value ds1), Some (decimal_value ds2)) /\
  _get_intpair_from_tag (Some (ds1 ++ SLASH :: ds2 ++ SLASH :: rest)) =
    Ok (Some (decimal_value ds1), Some (decimal_value ds2)) /\
  (forall p r, str_isdigit p = true ->
   (str_isdecimal p = false \/ int_max_str_digits < Z.of_nat (length p)) ->
   _get_intpair_from_tag (Some p) = Raise (LgException EINVTAGS) /\
   _get_intpair_from_tag (Some (p ++ SLASH :: r)) = Raise (LgException EINVTAGS)).
Proof.
  intros H1 H2 L1 L2.
  assert (F1 : forallb py_isdecimal_cp ds1 = true) by (destruct ds1; [discriminate|exact H1]).
  assert (F2 : forallb py_isdecimal_cp ds2 = true) by (destruct ds2; [discriminate|exact H2]).
  pose proof (forallb_decimal_digit _ F1) as D1. pose proof (forallb_decimal_digit _ F2) as D2.
  assert (I1 : int_if_digits (Some ds1) = Ok (Some (decimal_value ds1))).
  { unfold int_if_digits. replace (str_isdigit ds1) with true by (destruct ds1; easy).
    rewrite (py_int_digits _ D1), H1. apply Z.leb_le in L1. now rewrite L1. }
  assert (I2 : int_if_digits (Some ds2) = Ok (Some (decimal_value ds2))).
  { unfold int_if_digits. replace (str_isdigit ds2) with true by (destruct ds2; easy).
    rewrite (py_int_digits _ D2), H2. apply Z.leb_le in L2. now rewrite L2. }
  split; [|split].
  - unfold _get_intpair_from_tag. rewrite has_slash.
    rewrite (split_digits _ _ (digits_no_slash _ D1)), (split_digits_end _ (digits_no_slash _ D2)).
    cbn [map app nth]. rewrite I1, I2. reflexivity.
  - unfold _get_intpair_from_tag. rewrite has_slash.
    rewrite (split_digits _ _ (digits_no_slash _ D1)), (split_digits _ _ (digits_no_slash _ D2)).
    cbn [map app nth]. rewrite I1, I2. reflexivity.
  - intros p r Hp Hbad.
    assert (Fp : forallb py_isdigit_cp p = true) by (destruct p; [discriminate|exact Hp]).
    assert (Ip : py_int p = Raise ValueError).
    { rewrite (py_int_digits _ Fp).
      destruct Hbad as [Hbad|Hbad]; [now rewrite Hbad|].
      replace (Z.of_nat (length p) <=? int_max_str_digits) with false
        by (symmetry; apply Z.leb_gt; exact Hbad).
      now rewrite andb_false_r. }
    split.
    + unfold _get_intpair_from_tag. rewrite (no_slash _ (digits_no_slash _ Fp)), Hp, Ip.
      reflexivity.
    + unfold _get_intpair_from_tag. rewrite has_slash, (split_digits _ _ (digits_no_slash _ Fp)).
      cbn [map app nth]. unfold int_if_digits. rewrite Hp, Ip. reflexivity.
Qed.

(** Where [_get_intpair_from_tag] reads a first number, [_get_int_from_tag]
    reads the same one from the same value ([TRCK]/[TRACKNUMBER]
    style values agree). *)
Theorem get_int_agrees_with_intpair (s : pystr) (n : Z) (m : option Z) :
  _get_intpair_from_tag (Some s) = Ok (Some n, m) -> _get_int_from_tag (Some s) = Ok (Some n).
Proof.
  unfold _get_intpair_from_tag.
  destruct (existsb (Z.eqb SLASH) s) eqn:Hs.
  - (* the first part is all decimal digits and stops at the first '/' *)
    destruct (split_first s Hs) as (p0 & r & -> & ws & Hw). rewrite Hw. cbn [map app nth].
    match goal with |- context [int_if_digits (Some ?x)] =>
      destruct (int_if_digits (Some x)) as [fv|y] eqn:Hf end; cbn [mbind outcome_bind];
      [|discriminate].
    match goal with |- context [int_if_digits ?x] => destruct (int_if_digits x) as [w|y] end;
      cbn [mbind outcome_bind]; [|discriminate].
    intros Hn. injection Hn as -> _.
    unfold int_if_digits in Hf. destruct (str_isdigit p0) eqn:Hd; [|discriminate].
    destruct (py_int p0) as [v|y] eqn:Hv; cbn in Hf; [|discriminate].
    injection Hf as <-.
    destruct (py_int_ok p0 v Hd Hv) as (Hdec & Hl & ->).
    pose proof (get_int_run [] p0 (SLASH :: r) eq_refl Hdec ltac:(vm_compute; reflexivity)) as G.
    cbn [app] in G. rewrite G. apply Z.leb_le in Hl. now rewrite Hl.
  - destruct (str_isdigit s) eqn:Hd; cbn [mbind outcome_bind]; [|discriminate].
    destruct (py_int s) as [v|y] eqn:Hv; cbn [mbind outcome_bind]; [|discriminate].
    intros Hn. injection Hn as <- _.
    destruct (py_int_ok s v Hd Hv) as (Hdec & Hl & ->).
    pose proof (get_int_run [] s [] eq_refl Hdec I) as G.
    rewrite app_nil_r in G. cbn [app] in G. rewrite G.
    apply Z.leb_le in Hl. now rewrite Hl.
Qed.

(* ------------------------------------------------------------------ *)
(** ** Witnesses: the hypotheses of the properties above hold together
       on concrete inputs *)

Lemma add_album_keeps_paths_nonempty_witness :
  let db0 := mkDB [("r1"%string, "/music/A"%string)] [("a1"%string, "/music/A"%string)] in
  paths_nonempty db0 /\
  paths_nonempty (fst (fst (add_album (fun _ => false) db0 "/music/B"%string (Some "r2"%string) (Some "a2"%string)))).
Proof.
  intros db0.
  assert (H : paths_nonempty db0) by (split; repeat constructor; discriminate).
  split; [exact H|].
  exact (add_album_keeps_paths_nonempty (fun _ => false) db0 "/music/B"%string (Some "r2"%string) (Some "a2"%string) H).
Defined.

Lemma add_album_keeps_ids_unique_witness :
  let db0 := mkDB [("r1"%string, "/music/A"%string)] [("a1"%string, "/music/A"%string)] in
  paths_nonempty db0 /\ ids_unique db0 /\
  ids_unique (fst (fst (add_album (fun _ => false) db0 "/music/B"%string (Some "r2"%string) (Some "a2"%string)))).
Proof.
  intros db0.
  assert (H1 : paths_nonempty db0) by (split; repeat constructor; discriminate).
  assert (H2 : ids_unique db0) by (split; apply NoDup_singleton).
  split; [exact H1|]. split; [exact H2|].
  exact (add_album_keeps_ids_unique (fun _ => false) db0 "/music/B"%string (Some "r2"%string) (Some "a2"%string) H1 H2).
Defined.

Lemma finalized_file_passes_next_check_witness :
  let env := mkFsEnv true true true 1700000100 in
  let f := mkFileState 1700000000 (Some (XNum 1600000000)) 436 in
  ax_verification_state af_finalized = EOK /\ exit_exc_ok ExcNone = true /\
  ax_should_delete af_finalized = false /\ ax_dryrun af_finalized = false /\
  ax_tags_updated af_finalized = true /\ save_ok env = true /\ setxattr_ok env = true /\
  (forall s, fs_xattr f <> Some (XRaw s)) /\
  exists f', audio_file_exit env af_finalized ExcNone f = Ok (Some f') /\
    _check_verification_ts_from_xattrs f' = Some (save_mtime env).
Proof.
  intros env f.
  assert (Hx : forall s, fs_xattr f <> Some (XRaw s)) by (intros s; discriminate).
  split; [reflexivity|]. split; [reflexivity|]. split; [reflexivity|]. split; [reflexivity|].
  split; [reflexivity|]. split; [reflexivity|]. split; [reflexivity|]. split; [exact Hx|].
  exact (finalized_file_passes_next_check env af_finalized ExcNone f
           eq_refl eq_refl eq_refl eq_refl eq_refl eq_refl eq_refl Hx).
Defined.

Lemma malformed_verification_ts_witness :
  let env := mkFsEnv true true true 1700000100 in
  let f := mkFileState 1700000000 (Some (XRaw "17000x"%string)) 436 in
  fs_xattr f = Some (XRaw "17000x"%string) /\
  _check_verification_ts_from_xattrs f = None /\
  (ax_verification_state af_finalized = EOK -> exit_exc_ok ExcNone = true ->
   ax_should_delete af_finalized = false -> ax_dryrun af_finalized = false ->
   ax_tags_updated af_finalized = true -> save_ok env = true ->
   audio_file_exit env af_finalized ExcNone f = Raise ValueError).
Proof.
  intros env f. split; [reflexivity|].
  exact (malformed_verification_ts env af_finalized ExcNone f "17000x"%string eq_refl).
Defined.

Lemma exit_leaves_unfinalized_file_witness :
  let env := mkFsEnv true true true 1700000100 in
  let af := mkAudioFileExit EOK false true true true in
  let f := mkFileState 1700000000 None 436 in
  (ax_verification_state af <> EOK \/ exit_exc_ok ExcNone = false \/ ax_dryrun af = true \/
   ax_tags_updated af = false \/ save_ok env = false) /\
  audio_file_exit env af ExcNone f = Ok (if ax_should_delete af then _delete af f else Some f).
Proof.
  intros env af f.
  assert (H : ax_verification_state af <> EOK \/ exit_exc_ok ExcNone = false \/
              ax_dryrun af = true \/ ax_tags_updated af = false \/ save_ok env = false)
    by (right; right; left; reflexivity).
  split; [exact H|]. exact (exit_leaves_unfinalized_file env af ExcNone f H).
Defined.

Lemma failed_directory_files_untouched_witness :
  let files : list FileSlot :=
    [Some (mkFsEnv true true true 1700000100, af_finalized, mkFileState 1700000000 None 436);
     None] in
  [ECORRUPTED] <> [] /\
  dir_exit_audio [ECORRUPTED] files =
  (map (fun slot => match slot with
                    | Some (env, af, f) => Some (Ok (if ax_should_delete af then _delete af f else Some f))
                    | None => None
                    end) files, Ok tt).
Proof.
  intros files. assert (H : [ECORRUPTED] <> []) by discriminate.
  split; [exact H|]. exact (failed_directory_files_untouched [ECORRUPTED] files H).
Defined.

Lemma get_type_mp3_tolerated_witness :
  is_marker_name "01 Song.MP3"%string = false /\
  py_lower (py_splitext_ext "01 Song.MP3"%string) = ".mp3"%string /\
  length (py_split_slash "application/octet-stream"%string) = 2%nat /\
  _get_type "01 Song.MP3"%string (Some "audio/mpeg"%string) (Some "application/octet-stream"%string) = Ok (Some AUDIO).
Proof.
  split; [reflexivity|]. split; [reflexivity|]. split; [reflexivity|].
  exact (get_type_mp3_tolerated "01 Song.MP3"%string "application/octet-stream"%string eq_refl eq_refl eq_refl).
Defined.

Lemma get_type_text_plain_accepted_witness :
  is_marker_name "info.nfo"%string = false /\
  length (py_split_slash "text/x-nfo"%string) = 2%nat /\ length (py_split_slash "text/plain"%string) = 2%nat /\
  ("text/x-nfo"%string = "text/plain"%string \/ "text/plain"%string = "text/plain"%string) /\
  exists fmt, _get_type "info.nfo"%string (Some "text/x-nfo"%string) (Some "text/plain"%string) = Ok (Some fmt).
Proof.
  assert (H : "text/x-nfo"%string = "text/plain"%string \/ "text/plain"%string = "text/plain"%string) by (right; reflexivity).
  split; [reflexivity|]. split; [reflexivity|]. split; [reflexivity|]. split; [exact H|].
  exact (get_type_text_plain_accepted "info.nfo"%string "text/x-nfo"%string "text/plain"%string eq_refl eq_refl eq_refl H).
Defined.

Lemma new_directory_part_of_set_witness :
  let entries := [EntFile (Ok (ResFile LgArtworkFileObj, Some HAS_ARTWORK))] in
  let nd := mkNewDir LgArtworkDirectory (Z.lor HAS_ARTWORK PART_OF_SET) [] [] in
  snd (lgdirectory_new false (Some entries) (file_results entries)) = Ok nd /\
  (flag_in PART_OF_SET (nd_flags nd) = true <->
   nd_class nd = LgArtworkDirectory \/ nd_class nd = LgVideoDirectory \/
   nd_class nd = LgInfoDirectory).
Proof.
  intros entries nd.
  assert (H : snd (lgdirectory_new false (Some entries) (file_results entries)) = Ok nd)
    by (vm_compute; reflexivity).
  split; [exact H|]. exact (new_directory_part_of_set false entries (file_results entries) nd H).
Defined.

Lemma new_directory_withdrawn_iff_failed_witness :
  let entries := [EntFile (Ok (ResErr EINVTAGS, None)); EntDir] in
  let nd := mkNewDir LgFailedDirectory HAS_SUBDIRS [EINVTAGS] [] in
  snd (lgdirectory_new false (Some entries) (file_results entries)) = Ok nd /\
  (should_withdraw (mkDir (nd_flags nd) (nd_errors nd) None) = true <->
   nd_class nd = LgFailedDirectory).
Proof.
  intros entries nd.
  assert (H : snd (lgdirectory_new false (Some entries) (file_results entries)) = Ok nd)
    by (vm_compute; reflexivity).
  split; [exact H|].
  exact (new_directory_withdrawn_iff_failed false entries (file_results entries) nd None H).
Defined.

Lemma marker_ignores_directory_witness :
  let slot := (mkFsEnv true true true 1700000100, af_finalized,
               mkFileState 1700000000 None 436) in
  let entries := [EntFile (Ok (ResFile LgMarkerFileObj, Some HAS_MARKER));
                  EntFile (Ok (ResFile (LgAudioFileObj slot), Some HAS_AUDIO));
                  EntFile (Ok (ResErr EINVFORMAT, None))] in
  let created := [Ok (Some LgMarkerFileObj); Ok (Some (LgAudioFileObj slot));
                  Raise (LgException EINVFORMAT)] in
  entries <> [] /\ forallb worker_returns created = true /\
  In (Ok (Some LgMarkerFileObj)) created /\
  (forall env af f s, In (Ok (Some (LgAudioFileObj (env, af, f)))) created ->
                      fs_xattr f <> Some (XRaw s)) /\
  snd (lgdirectory_new false (Some entries) (map (_process_file_entry true) created))
  = Raise (LgException EIGNORE).
Proof.
  intros slot entries created.
  assert (H1 : entries <> []) by discriminate.
  assert (H3 : In (Ok (Some LgMarkerFileObj)) created) by (left; reflexivity).
  assert (H4 : forall env af f s, In (Ok (Some (LgAudioFileObj (env, af, f)))) created ->
                                  fs_xattr f <> Some (XRaw s)).
  { intros env af f s [H|[H|[H|[]]]]; try discriminate.
    injection H as _ _ <-. cbn. discriminate. }
  split; [exact H1|]. split; [reflexivity|]. split; [exact H3|]. split; [exact H4|].
  exact (proj2 (marker_ignores_directory false entries created H1 eq_refl H3) H4).
Defined.

Lemma lgdirectory_new_order_independent_witness :
  let slot := (mkFsEnv true true true 1700000100, af_finalized,
               mkFileState 1700000000 None 436) in
  let entries := [EntFile (Ok (ResFile (LgAudioFileObj slot), Some HAS_AUDIO));
                  EntFile (Ok (ResErr EINVTAGS, None))] in
  let c1 := [Ok (Some (LgAudioFileObj slot)); Raise (LgException EINVTAGS)] in
  let c2 := [Raise (LgException EINVTAGS); Ok (Some (LgAudioFileObj slot))] in
  Permutation c1 c2 /\ forallb worker_returns c1 = true /\
  match snd (lgdirectory_new false (Some entries) (map (_process_file_entry true) c1)),
        snd (lgdirectory_new false (Some entries) (map (_process_file_entry true) c2)) with
  | Ok n1, Ok n2 =>
      nd_class n1 = nd_class n2 /\ nd_flags n1 = nd_flags n2 /\
      Permutation (nd_errors n1) (nd_errors n2) /\
      Permutation (nd_audio_files n1) (nd_audio_files n2)
  | Raise x1, Raise x2 => x1 = LgException EIGNORE <-> x2 = LgException EIGNORE
  | _, _ => False
  end.
Proof.
  intros slot entries c1 c2.
  assert (H : Permutation c1 c2) by apply perm_swap.
  split; [exact H|]. split; [reflexivity|].
  exact (lgdirectory_new_order_independent false entries c1 c2 H eq_refl).
Defined.

Lemma audio_file_new_status_witness :
  let p := mkProbe "ogg"%string 48000 96000 16 in
  let fi := mkFormatInfo ".ogg"%string 112000 0.7 in
  FORMAT_MAP (pr_format_name p) = Some fi /\
  audio_file_new (Analyzed p) true true =
  Ok (Some (fi, Some (if pr_bit_depth p <? 16 then EINVBITS
                      else if pr_sample_rate p <? 44100 then EINVSRATE
                      else if (0 <? fi_min_bitrate fi) && (pr_bit_rate p <? fi_min_bitrate fi)
                      then EINVBRATE else EOK))).
Proof.
  intros p fi. split; [reflexivity|]. exact (audio_file_new_status p fi eq_refl).
Defined.

Lemma audio_file_new_corrupted_kept_witness :
  let p := mkProbe "flac"%string 22050 900000 8 in
  let fi := mkFormatInfo ".flac"%string 0 1.0 in
  FORMAT_MAP (pr_format_name p) = Some fi /\
  audio_file_new (AnalysisFailed AunCodecError (Some p)) true true = Ok (Some (fi, Some ECORRUPTED)).
Proof.
  intros p fi. split; [reflexivity|]. exact (audio_file_new_corrupted_kept p fi eq_refl).
Defined.

Lemma audio_file_new_unclassified_error_witness :
  let p := mkProbe "mp3"%string 44100 192000 16 in
  let fi := mkFormatInfo ".mp3"%string 128000 0.55 in
  FORMAT_MAP (pr_format_name p) = Some fi /\
  16 <= pr_bit_depth p /\ 44100 <= pr_sample_rate p /\
  (fi_min_bitrate fi <= 0 \/ fi_min_bitrate fi <= pr_bit_rate p) /\
  audio_file_new (AnalysisFailed AunOtherError (Some p)) true true = Ok (Some (fi, None)).
Proof.
  intros p fi.
  assert (H1 : 16 <= pr_bit_depth p) by (cbn; lia).
  assert (H2 : 44100 <= pr_sample_rate p) by (cbn; lia).
  assert (H3 : fi_min_bitrate fi <= 0 \/ fi_min_bitrate fi <= pr_bit_rate p) by (right; cbn; lia).
  split; [reflexivity|]. split; [exact H1|]. split; [exact H2|]. split; [exact H3|].
  exact (audio_file_new_unclassified_error p fi eq_refl H1 H2 H3).
Defined.

Lemma audio_lt_raises_iff_witness :
  let self := mkAudioFileQM ti_corrupted_flac EOK None None in
  let other := mkAudioFileQM ti_corrupted_flac_longer EOK None None in
  trackinfo_eq len_hash 0 (af_track_info self) (af_track_info other) = true /\
  (audio_lt len_hash 0 self other None = Raise ValueError <->
   None = @None float /\ ~ (240 = 0 /\ 0 < 250) /\ ~ (0 < 240 /\ 250 = 0) /\ 5 < Z.abs (240 - 250)).
Proof.
  intros self other.
  assert (H : trackinfo_eq len_hash 0 (af_track_info self) (af_track_info other) = true)
    by (vm_compute; reflexivity).
  split; [exact H|]. exact (audio_lt_raises_iff len_hash 0 self other None H).
Defined.

Lemma register_set_members_share_entry_witness :
  let st : DirStore :=
    {[0%nat := mkDir HAS_SUBDIRS [] None;
      1%nat := mkDir (Z.lor HAS_AUDIO PART_OF_SET) [] (Some 0%nat);
      2%nat := mkDir (Z.lor HAS_AUDIO PART_OF_SET) [] (Some 0%nat)]} in
  let paths := fun i : nat => (match i with 0%nat => "/music/Album"%string | 1%nat => "/music/Album/CD1"%string
                              | _ => "/music/Album/CD2"%string end, @None string) in
  let d := mkDir (Z.lor HAS_AUDIO PART_OF_SET) [] (Some 0%nat) in
  st !! 1%nat = Some d /\ st !! 2%nat = Some d /\ d_errors d = [] /\
  flag_in PART_OF_SET (d_flags d) = true /\ d_parent d = Some 0%nat /\ is_Some (st !! 0%nat) /\
  album_id ti_corrupted_flac <> None /\ releasegroup_id ti_corrupted_flac <> None /\
  let db1 := fst (fst (register (fun _ => false) paths ti_corrupted_flac st 1%nat (mkDB [] []))) in
  fst (fst (register (fun _ => false) paths ti_corrupted_flac st 2%nat db1)) = db1.
Proof.
  intros st paths d.
  assert (H0 : is_Some (st !! 0%nat)) by (eexists; reflexivity).
  assert (Ha : album_id ti_corrupted_flac <> None) by discriminate.
  assert (Hr : releasegroup_id ti_corrupted_flac <> None) by discriminate.
  split; [reflexivity|]. split; [reflexivity|]. split; [reflexivity|]. split; [reflexivity|].
  split; [reflexivity|]. split; [exact H0|]. split; [exact Ha|]. split; [exact Hr|].
  exact (register_set_members_share_entry paths ti_corrupted_flac ti_corrupted_flac st
           1%nat 2%nat 0%nat d d (mkDB [] []) eq_refl eq_refl eq_refl eq_refl eq_refl eq_refl
           eq_refl eq_refl H0 eq_refl eq_refl Ha Hr).
Defined.



Lemma get_int_from_tag_none_iff_witness :
  let s := [32; 178; 32] in
  forallb (fun c => negb (py_isdecimal_cp c)) s = true /\ str_isdigit (py_strip s) = true /\
  _get_int_from_tag (Some s) = Raise (LgException EINVTAGS).
Proof.
  intros s.
  assert (H1 : forallb (fun c => negb (py_isdecimal_cp c)) s = true) by (vm_compute; reflexivity).
  assert (H2 : str_isdigit (py_strip s) = true) by (vm_compute; reflexivity).
  split; [exact H1|]. split; [exact H2|].
  exact (proj1 (proj2 (get_int_from_tag_none_iff s)) H1 H2).
Defined.

Lemma get_int_from_tag_first_number_witness :
  let pre := [84; 114; 97; 99; 107; 32] in
  let ds := [1632; 1639] in
  let rest := [32; 111; 102; 32; 49; 50] in
  forallb (fun c => negb (py_isdecimal_cp c)) pre = true /\ str_isdecimal ds = true /\
  match rest with [] => True | c :: _ => py_isdecimal_cp c = false end /\
  _get_int_from_tag (Some (pre ++ ds ++ rest)) =
  if Z.of_nat (length ds) <=? int_max_str_digits then Ok (Some (decimal_value ds))
  else Raise (LgException EINVTAGS).
Proof.
  intros pre ds rest.
  assert (H1 : forallb (fun c => negb (py_isdecimal_cp c)) pre = true) by (vm_compute; reflexivity).
  assert (H2 : str_isdecimal ds = true) by (vm_compute; reflexivity).
  assert (H3 : match rest with [] => True | c :: _ => py_isdecimal_cp c = false end)
    by (vm_compute; reflexivity).
  split; [exact H1|]. split; [exact H2|]. split; [exact H3|].
  exact (get_int_from_tag_first_number pre ds rest H1 H2 H3).
Defined.

Lemma get_intpair_from_tag_digits_witness :
  let ds1 := [51] in
  let ds2 := [49; 50] in
  let rest := [120] in
  str_isdecimal ds1 = true /\ str_isdecimal ds2 = true /\
  Z.of_nat (length ds1) <= int_max_str_digits /\ Z.of_nat (length ds2) <= int_max_str_digits /\
  _get_intpair_from_tag (Some (ds1 ++ SLASH :: ds2)) =
    Ok (Some (decimal_value ds1), Some (decimal_value ds2)).
Proof.
  intros ds1 ds2 rest.
  assert (H1 : str_isdecimal ds1 = true) by (vm_compute; reflexivity).
  assert (H2 : str_isdecimal ds2 = true) by (vm_compute; reflexivity).
  assert (L1 : Z.of_nat (length ds1) <= int_max_str_digits) by (vm_compute; discriminate).
  assert (L2 : Z.of_nat (length ds2) <= int_max_str_digits) by (vm_compute; discriminate).
  split; [exact H1|]. split; [exact H2|]. split; [exact L1|]. split; [exact L2|].
  exact (proj1 (get_intpair_from_tag_digits ds1 ds2 rest H1 H2 L1 L2)).
Defined.

Lemma get_int_agrees_with_intpair_witness :
  let s := [51; 47; 49; 50] in
  _get_intpair_from_tag (Some s) = Ok (Some 3, Some 12) /\
  _get_int_from_tag (Some s) = Ok (Some 3).
Proof.
  intros s.
  assert (H : _get_intpair_from_tag (Some s) = Ok (Some 3, Some 12)) by (vm_compute; reflexivity).
  split; [exact H|]. exact (get_int_agrees_with_intpair s 3 (Some 12) H).
Defined.
